(** * PocketGNU service worker: cache strategy dispatcher

    A shallow embedding of the service worker script (request
    classification, the five caching strategies, the install handler, the
    message handler and the periodic cleanup) together with the
    properties of its specification.

    The browser is the environment of the script.  Its Cache Storage is
    modelled as an ordered list of named partitions, each a finite map
    from request URL to response; the network is an oracle from requests
    to settled fetches; promises are run to completion in the order in
    which the script starts them, so an [Async] computation is a function
    from the state of the world to the new state and a settled value.

    A cache does not take everything: [put] refuses a request that is
    not a [GET] over http or https and a response of status 206 or with
    [Vary: *]; [add] and [addAll] make a request of each string by
    resolving it against the location of the worker, fetch that
    absolute URL and store under it, and refuse a response outside the
    2xx class as well.  A promise that the script does not await, the
    [put] of a strategy, is run where it is started and its outcome is
    dropped: the world after a handler is the world in which that [put]
    has landed. *)

From Stdlib Require Import ZArith Ascii String.
From stdpp Require Import gmap strings list fin_maps.

Local Open Scope string_scope.
Local Open Scope list_scope.
Local Open Scope Z_scope.

(** ** Regular expressions

    The fragment of JavaScript regular expressions that occurs in
    [CACHE_PATTERNS]: literal characters (escaped or not), sequencing,
    alternation inside a non-capturing group, the empty pattern, and the
    anchors [^] and [$] (without the [m] flag: start and end of the
    input). *)

Module RegExp.

Inductive regex : Type :=
| Chr (c : ascii)
| Seq (r1 r2 : regex)
| Alt (r1 r2 : regex)
| Bol
| Eol
| Eps.

(** [lit "abc"] is the pattern [abc], a sequence of literal characters
    closed by the empty pattern. *)
Fixpoint lit (s : string) : regex :=
  match s with
  | EmptyString => Eps
  | String c s' => Seq (Chr c) (lit s')
  end.

(** Backtracking matcher in continuation-passing style.  [pos] is the
    index of the next character in the whole input and [s] the rest of
    the input from there. *)
Fixpoint matchk (r : regex) (pos : nat) (s : string)
         (k : nat -> string -> bool) : bool :=
  match r with
  | Chr c =>
      match s with
      | String d s' => if Ascii.eqb c d then k (S pos) s' else false
      | EmptyString => false
      end
  | Seq r1 r2 => matchk r1 pos s (fun pos' s' => matchk r2 pos' s' k)
  | Alt r1 r2 => matchk r1 pos s k || matchk r2 pos s k
  | Bol => Nat.eqb pos 0 && k pos s
  | Eol => match s with EmptyString => k pos s | String _ _ => false end
  | Eps => k pos s
  end.

Fixpoint search (r : regex) (pos : nat) (s : string) : bool :=
  matchk r pos s (fun _ _ => true)
  || match s with
     | EmptyString => false
     | String _ s' => search r (S pos) s'
     end.

(** [pattern.test(url)] for a pattern without the [g] and [y] flags:
    a match starting at any index. *)
Definition test (r : regex) (s : string) : bool := search r 0 s.

End RegExp.

(** ** Constants of the script *)

Definition STATIC_CACHE : string := "pocketgnu-static-v1.0.0".
Definition DYNAMIC_CACHE : string := "pocketgnu-dynamic-v1.0.0".

Definition CRITICAL_RESOURCES : list string :=
  [ "/"; "/index.html"; "/css/critical.css"; "/js/errorHandler.js";
    "/js/utils.js"; "/js/scripts.js" ].

Definition STATIC_RESOURCES : list string :=
  [ "/css/styles.css";
    "https://fonts.googleapis.com/css2?family=Inter:wght@300;400;500;600;700&display=swap" ].

Module CACHE_STRATEGIES.
Definition CACHE_FIRST : string := "cache-first".
Definition NETWORK_FIRST : string := "network-first".
Definition STALE_WHILE_REVALIDATE : string := "stale-while-revalidate".
Definition NETWORK_ONLY : string := "network-only".
Definition CACHE_ONLY : string := "cache-only".
End CACHE_STRATEGIES.

Record CachePattern : Type := mkPattern {
  pattern : RegExp.regex;
  strategy : string
}.

Section Patterns.
Import RegExp.

(** [/\.(?:js|css)$/] *)
Definition script_or_style : regex :=
  Seq (Chr ".") (Seq (Alt (lit "js") (lit "css")) Eol).

(** [/\.(?:png|jpg|jpeg|svg|gif|webp)$/] *)
Definition image : regex :=
  Seq (Chr ".")
      (Seq (Alt (lit "png")
           (Alt (lit "jpg")
           (Alt (lit "jpeg")
           (Alt (lit "svg")
           (Alt (lit "gif") (lit "webp"))))))
           Eol).

(** [/^https:\/\/fonts\.googleapis\.com/] *)
Definition google_fonts_css : regex :=
  Seq Bol (lit "https://fonts.googleapis.com").

(** [/^https:\/\/fonts\.gstatic\.com/] *)
Definition google_fonts_files : regex :=
  Seq Bol (lit "https://fonts.gstatic.com").
End Patterns.

Definition CACHE_PATTERNS : list CachePattern :=
  [ mkPattern script_or_style CACHE_STRATEGIES.STALE_WHILE_REVALIDATE;
    mkPattern image CACHE_STRATEGIES.CACHE_FIRST;
    mkPattern google_fonts_css CACHE_STRATEGIES.STALE_WHILE_REVALIDATE;
    mkPattern google_fonts_files CACHE_STRATEGIES.CACHE_FIRST ].

(** The [for ... of] loop of [getCacheStrategy], over the patterns that
    remain to be tried. *)
Fixpoint firstMatching (patterns : list CachePattern) (url : string) : string :=
  match patterns with
  | [] => CACHE_STRATEGIES.NETWORK_FIRST
  | p :: rest =>
      if RegExp.test (pattern p) url then strategy p
      else firstMatching rest url
  end.

Definition getCacheStrategy (url : string) : string :=
  firstMatching CACHE_PATTERNS url.

(** ** Requests, responses and errors *)

Record Request : Type := mkRequest {
  method : string;
  url : string
}.

(** A request built from a bare URL, as [cache.add(url)] does. *)
Definition GET (u : string) : Request := mkRequest "GET" u.

(** [new URL(text).protocol]: the scheme with its colon. *)
Fixpoint URL_protocol (text : string) : string :=
  match text with
  | EmptyString => EmptyString
  | String c rest =>
      if Ascii.eqb c ":" then ":" else String c (URL_protocol rest)
  end.

(** [headers] maps a lower-case header name to the value that
    [headers.get(name)] returns. *)
Record Response : Type := mkResponse {
  status : Z;
  statusText : string;
  body : string;
  headers : gmap string string
}.

(** [response.ok]: a status in the range 200..299. *)
Definition ok (response : Response) : bool :=
  (200 <=? status response) && (status response <=? 299).

Definition headers_get (name : string) (response : Response) : option string :=
  headers response !! name.

(** The values of a comma-separated header field, without the white
    space around them. *)
Fixpoint splitCommas (text : string) : list string :=
  match text with
  | EmptyString => [EmptyString]
  | String c rest =>
      if Ascii.eqb c "," then EmptyString :: splitCommas rest
      else match splitCommas rest with
           | value :: values => String c value :: values
           | [] => [String c EmptyString]
           end
  end.

Definition isBlank (c : ascii) : bool := Ascii.eqb c " " || Ascii.eqb c "009".

Fixpoint trimStart (text : string) : string :=
  match text with
  | String c rest => if isBlank c then trimStart rest else text
  | EmptyString => EmptyString
  end.

Fixpoint trimEnd (text : string) : string :=
  match text with
  | String c rest =>
      match trimEnd rest with
      | EmptyString => if isBlank c then EmptyString else String c EmptyString
      | kept => String c kept
      end
  | EmptyString => EmptyString
  end.

Definition fieldValues (text : string) : list string :=
  map (fun value => trimEnd (trimStart value)) (splitCommas text).

(** A [Vary] header with the value [*]. *)
Definition variesOnEverything (response : Response) : bool :=
  match headers_get "vary" response with
  | Some text => existsb (String.eqb "*") (fieldValues text)
  | None => false
  end.

(** The responses that a cache stores: not a partial response (status
    206) and not a response with [Vary: *]. *)
Definition storable (response : Response) : bool :=
  negb (status response =? 206) && negb (variesOnEverything response).

(** The requests under which a cache stores: a [GET] whose URL has the
    scheme http or https. *)
Definition schemeIsHttp (text : string) : bool :=
  String.eqb (URL_protocol text) "http:" || String.eqb (URL_protocol text) "https:".

Definition cacheable (request : Request) : bool :=
  String.eqb (method request) "GET" && schemeIsHttp (url request).

(** What [cache.put(request, response)] accepts. *)
Definition putAccepts (request : Request) (response : Response) : bool :=
  cacheable request && storable response.

Record Error : Type := mkError {
  name : string;
  message : string
}.

(** What a handler hands to [event.respondWith]: a response, or [null]. *)
Inductive Value : Type :=
| VResponse (response : Response)
| VNull.

(** A settled promise. *)
Inductive Settled (A : Type) : Type :=
| Fulfilled (value : A)
| Rejected (reason : Error).
Arguments Fulfilled {A} value.
Arguments Rejected {A} reason.

Definition isFulfilled {A} (p : Settled A) : bool :=
  match p with Fulfilled _ => true | Rejected _ => false end.

(** ** Metrics, replies and the state of the world *)

Record Metrics : Type := mkMetrics {
  cacheHits : Z;
  cacheMisses : Z;
  networkRequests : Z;
  errors : Z
}.

Module PrefetchResult.
(** [url] is [urls[index]], which is [undefined] ([None]) out of range. *)
Record t : Type := mk {
  url : option string;
  success : bool;
  error : option string
}.
End PrefetchResult.

(** Messages posted on [event.ports[0]]. *)
Inductive Reply : Type :=
| METRICS_RESPONSE (payload : Metrics)
| CACHE_CLEARED (success : bool) (error : option string)
| PREFETCH_COMPLETE (results : list PrefetchResult.t).

(** Calls on the browser that the script makes, in the order made. *)
Inductive Event : Type :=
| EvFetch (request : Request)
| EvCachePut (cacheName : string) (key : string) (response : Response)
| EvCacheDelete (cacheName : string) (key : string)
| EvStorageDelete (cacheName : string)
| EvSkipWaiting
| EvPostMessage (reply : Reply).

Record World : Type := mkWorld {
  caches : list (string * gmap string Response);
  metrics : Metrics;
  trace : list Event
}.

Definition set_caches (cs : list (string * gmap string Response)) (w : World) : World :=
  mkWorld cs (metrics w) (trace w).
Definition set_metrics (m : Metrics) (w : World) : World :=
  mkWorld (caches w) m (trace w).
Definition emit (e : Event) (w : World) : World :=
  mkWorld (caches w) (metrics w) (trace w ++ [e]).

Definition cachePuts (t : list Event) : list (string * string * Response) :=
  omap (fun e => match e with EvCachePut n k r => Some (n, k, r) | _ => None end) t.
Definition fetches (t : list Event) : list Request :=
  omap (fun e => match e with EvFetch r => Some r | _ => None end) t.
Definition replies (t : list Event) : list Reply :=
  omap (fun e => match e with EvPostMessage m => Some m | _ => None end) t.
Definition skipWaitingCalls (t : list Event) : list unit :=
  omap (fun e => match e with EvSkipWaiting => Some tt | _ => None end) t.

(** ** Asynchronous computations *)

Definition Async (A : Type) : Type := World -> World * Settled A.

Definition ret {A} (a : A) : Async A := fun w => (w, Fulfilled a).
Definition throw {A} (e : Error) : Async A := fun w => (w, Rejected e).

(** [await]: the continuation runs on fulfilment, a rejection passes. *)
Definition bind {A B} (c : Async A) (k : A -> Async B) : Async B :=
  fun w =>
    match c w with
    | (w', Fulfilled a) => k a w'
    | (w', Rejected e) => (w', Rejected e)
    end.

(** [try { body } catch (error) { handler }], and [promise.catch(handler)]. *)
Definition catch {A} (body : Async A) (handler : Error -> Async A) : Async A :=
  fun w =>
    match body w with
    | (w', Fulfilled a) => (w', Fulfilled a)
    | (w', Rejected e) => handler e w'
    end.

(** A promise that is not awaited: it runs, and nothing looks at how it
    settles. *)
Definition detached {A} (c : Async A) : Async unit :=
  fun w => ((c w).1, Fulfilled tt).

Notation "'await' x <- c ;; k" := (bind c (fun x => k))
  (at level 10, x name, c at level 99, k at level 200).
Notation "'run' c ;; k" := (bind c (fun _ => k))
  (at level 10, c at level 99, k at level 200).

(** [Promise.all]: every computation is started; the result is the list of
    values, or the first rejection. *)
Fixpoint Promise_all {A} (ps : list (Async A)) : Async (list A) :=
  match ps with
  | [] => ret []
  | p :: rest =>
      fun w =>
        let (w1, r1) := p w in
        let (w2, r2) := Promise_all rest w1 in
        (w2, match r1, r2 with
             | Fulfilled a, Fulfilled l => Fulfilled (a :: l)
             | Rejected e, _ => Rejected e
             | Fulfilled _, Rejected e => Rejected e
             end)
  end.

(** [Promise.allSettled]: every computation is started and the result
    is the list of their outcomes; it never rejects. *)
Fixpoint settleAll {A} (ps : list (Async A)) (w : World) : World * list (Settled A) :=
  match ps with
  | [] => (w, [])
  | p :: rest =>
      let (w1, r1) := p w in
      let (w2, l) := settleAll rest w1 in
      (w2, r1 :: l)
  end.

Definition Promise_allSettled {A} (ps : list (Async A)) : Async (list (Settled A)) :=
  fun w => let (w', l) := settleAll ps w in (w', Fulfilled l).

(** ** The performance monitor *)

Module PerformanceMonitor.
Definition initial : Metrics := mkMetrics 0 0 0 0.

Definition recordCacheHit : Async unit := fun w =>
  let m := metrics w in
  (set_metrics (mkMetrics (cacheHits m + 1) (cacheMisses m) (networkRequests m) (errors m)) w,
   Fulfilled tt).

Definition recordCacheMiss : Async unit := fun w =>
  let m := metrics w in
  (set_metrics (mkMetrics (cacheHits m) (cacheMisses m + 1) (networkRequests m) (errors m)) w,
   Fulfilled tt).

Definition recordNetworkRequest : Async unit := fun w =>
  let m := metrics w in
  (set_metrics (mkMetrics (cacheHits m) (cacheMisses m) (networkRequests m + 1) (errors m)) w,
   Fulfilled tt).

Definition recordError (error : Error) : Async unit := fun w =>
  let m := metrics w in
  (set_metrics (mkMetrics (cacheHits m) (cacheMisses m) (networkRequests m) (errors m + 1)) w,
   Fulfilled tt).

Definition getMetrics : Async Metrics := fun w => (w, Fulfilled (metrics w)).
End PerformanceMonitor.
Import PerformanceMonitor.

(** ** Cache Storage *)

Fixpoint storage_lookup (cacheName : string)
         (cs : list (string * gmap string Response)) : option (gmap string Response) :=
  match cs with
  | [] => None
  | (n, c) :: rest => if String.eqb n cacheName then Some c else storage_lookup cacheName rest
  end.

Fixpoint storage_update (cacheName : string)
         (f : gmap string Response -> gmap string Response)
         (cs : list (string * gmap string Response)) : list (string * gmap string Response) :=
  match cs with
  | [] => []
  | (n, c) :: rest =>
      if String.eqb n cacheName then (n, f c) :: rest
      else (n, c) :: storage_update cacheName f rest
  end.

(** The partition called [cacheName]; empty when it does not exist. *)
Definition partition (cacheName : string) (w : World) : gmap string Response :=
  default ∅ (storage_lookup cacheName (caches w)).

(** [caches.open(name)] creates the partition when it does not exist. *)
Definition caches_open (cacheName : string) : Async unit := fun w =>
  match storage_lookup cacheName (caches w) with
  | Some _ => (w, Fulfilled tt)
  | None => (set_caches (caches w ++ [(cacheName, ∅)]) w, Fulfilled tt)
  end.

(** [caches.match(request)]: the partitions are searched in the order in
    which they were created. *)
Fixpoint storage_match (key : string)
         (cs : list (string * gmap string Response)) : option Response :=
  match cs with
  | [] => None
  | (_, c) :: rest =>
      match c !! key with
      | Some r => Some r
      | None => storage_match key rest
      end
  end.

Definition caches_match (request : Request) : Async (option Response) :=
  fun w => (w, Fulfilled (storage_match (url request) (caches w))).

(** Operations on an opened partition. *)
Definition cache_match (cacheName key : string) : Async (option Response) :=
  fun w => (w, Fulfilled (partition cacheName w !! key)).

Definition cache_keys (cacheName : string) : Async (list string) :=
  fun w => (w, Fulfilled ((map_to_list (partition cacheName w)).*1)).

(** The write itself: the entry for [key] is set, over any entry that
    was there. *)
Definition cache_store (cacheName : string) (key : string) (response : Response) : Async unit :=
  fun w =>
    (emit (EvCachePut cacheName key response)
          (set_caches (storage_update cacheName (insert key response) (caches w)) w),
     Fulfilled tt).

(** The [TypeError] of a refused [put]; no code of the worker reads it. *)
Definition putRefused : Error := mkError "TypeError" "Entry cannot be stored".

(** [cache.put(request, response)]: the call is recorded; what the
    cache does not accept is refused and nothing is stored. *)
Definition cache_put (cacheName : string) (request : Request) (response : Response) : Async unit :=
  fun w =>
    if putAccepts request response then cache_store cacheName (url request) response w
    else (emit (EvCachePut cacheName (url request) response) w, Rejected putRefused).

Definition cache_delete (cacheName : string) (key : string) : Async bool :=
  fun w =>
    (emit (EvCacheDelete cacheName key)
          (set_caches (storage_update cacheName (delete key) (caches w)) w),
     Fulfilled (bool_decide (is_Some (partition cacheName w !! key)))).

Definition caches_keys : Async (list string) :=
  fun w => (w, Fulfilled ((caches w).*1)).

Definition caches_delete (cacheName : string) : Async bool := fun w =>
  (emit (EvStorageDelete cacheName)
        (set_caches (filter (fun nc => negb (String.eqb nc.1 cacheName)) (caches w)) w),
   Fulfilled (bool_decide (is_Some (storage_lookup cacheName (caches w))))).

Definition skipWaiting : Async unit := fun w => (emit EvSkipWaiting w, Fulfilled tt).

Definition postMessage (reply : Reply) : Async unit :=
  fun w => (emit (EvPostMessage reply) w, Fulfilled tt).

(** ** The location of the worker

    [cache.add(url)] and [cache.addAll(urls)] make a request of each
    string.  [resolve url] is how that goes: fulfilled with the absolute
    URL of the request, the string resolved against the URL of the
    worker script, or rejected with the [TypeError] of the browser when
    the string cannot be parsed or the scheme of its URL is neither http
    nor https.  The absolute URL is the one that is fetched and the key
    under which the response is stored; it is taken without a fragment,
    which is not sent to the network and which a cache ignores when it
    compares keys. *)
Class Location : Type := resolve : string -> Settled string.

(** ** The worker *)

Section Worker.

Context {here : Location}.

(** The network: how [fetch(request)] settles. *)
Variable network : Request -> Settled Response.

(** The [TypeError] with which [cache.add] and [cache.addAll] reject a
    response whose status is outside 200..299 or that the cache does
    not accept; its text is the browser's. *)
Variable bad_status : Response -> Error.

(** [Date.now()], and [new Date(text).getTime()] with [None] for [NaN];
    both in milliseconds. *)
Variable Date_now : Z.
Variable Date_parse : string -> option Z.

Definition fetch (request : Request) : Async Response :=
  fun w => (emit (EvFetch request) w, network request).

(** The request that [cache.add] makes of a string. *)
Definition requestOf (key : string) : Async string :=
  fun w => (w, resolve key).

(** The fetch of [cache.add]: a response that is not [ok], or that the
    cache does not store, rejects. *)
Definition fetch_ok (absolute : string) : Async Response :=
  await response <- fetch (GET absolute) ;;
  if ok response && storable response then ret response
  else throw (bad_status response).

(** The request and the response have passed the checks of [put]: the
    response is written. *)
Definition cache_add (cacheName : string) (key : string) : Async unit :=
  await absolute <- requestOf key ;;
  await response <- fetch_ok absolute ;;
  cache_store cacheName absolute response.

Fixpoint putAll (cacheName : string) (entries : list (string * Response)) : Async unit :=
  match entries with
  | [] => ret tt
  | (key, response) :: rest =>
      run cache_store cacheName key response ;;
      putAll cacheName rest
  end.

(** [cache.addAll(urls)] makes all the requests before it fetches any,
    and stores all the responses or none. *)
Definition cache_addAll (cacheName : string) (keys : list string) : Async unit :=
  await absolutes <- Promise_all (map requestOf keys) ;;
  await responses <- Promise_all (map fetch_ok absolutes) ;;
  putAll cacheName (zip absolutes responses).

(** *** Install *)

(** The two promises given to [Promise.all]: the critical resources
    into the static partition, and the preload of the others into the
    dynamic partition, each failure of which is caught. *)
Definition cacheCritical : Async unit :=
  run caches_open STATIC_CACHE ;;
  cache_addAll STATIC_CACHE CRITICAL_RESOURCES.

Definition preloadStatic : Async unit :=
  run caches_open DYNAMIC_CACHE ;;
  await _ <- Promise_allSettled
    (map (fun url =>
            catch (cache_add DYNAMIC_CACHE url)
                  (fun err => ret tt))
         STATIC_RESOURCES) ;;
  ret tt.

(** The promise given to [event.waitUntil]. *)
Definition oninstall : Async unit :=
  catch
    (await _ <- Promise_all [ cacheCritical; preloadStatic ] ;;
     skipWaiting)
    (fun error => recordError error).

(** *** Strategies *)

Definition cacheFirst (request : Request) : Async Value :=
  await cachedResponse <- caches_match request ;;
  match cachedResponse with
  | Some cachedResponse =>
      run recordCacheHit ;;
      ret (VResponse cachedResponse)
  | None =>
      run recordCacheMiss ;;
      run recordNetworkRequest ;;
      await networkResponse <- fetch request ;;
      run (if ok networkResponse then
             run caches_open DYNAMIC_CACHE ;;
             detached (cache_put DYNAMIC_CACHE request networkResponse)
           else ret tt) ;;
      ret (VResponse networkResponse)
  end.

Definition networkFirst (request : Request) : Async Value :=
  catch
    (run recordNetworkRequest ;;
     await networkResponse <- fetch request ;;
     run (if ok networkResponse then
            run caches_open DYNAMIC_CACHE ;;
            detached (cache_put DYNAMIC_CACHE request networkResponse)
          else ret tt) ;;
     ret (VResponse networkResponse))
    (fun error =>
       await cachedResponse <- caches_match request ;;
       match cachedResponse with
       | Some cachedResponse =>
           run recordCacheHit ;;
           ret (VResponse cachedResponse)
       | None =>
           run recordCacheMiss ;;
           throw error
       end).

(** [fetchPromise] is started before the cached response is looked at
    and is run to completion here; on the cached path its value is
    dropped. *)
Definition staleWhileRevalidate (request : Request) : Async Value :=
  await cachedResponse <- caches_match request ;;
  await fetched <-
    catch
      (await networkResponse <- fetch request ;;
       run (if ok networkResponse then
              run caches_open DYNAMIC_CACHE ;;
              detached (cache_put DYNAMIC_CACHE request networkResponse)
            else ret tt) ;;
       ret (VResponse networkResponse))
      (fun error => ret VNull) ;;
  match cachedResponse with
  | Some cachedResponse =>
      run recordCacheHit ;;
      ret (VResponse cachedResponse)
  | None =>
      run recordCacheMiss ;;
      run recordNetworkRequest ;;
      ret fetched
  end.

Definition cacheOnly (request : Request) : Async Value :=
  await cachedResponse <- caches_match request ;;
  match cachedResponse with
  | Some cachedResponse =>
      run recordCacheHit ;;
      ret (VResponse cachedResponse)
  | None =>
      run recordCacheMiss ;;
      throw (mkError "Error" "Resource not in cache")
  end.

Definition networkOnly (request : Request) : Async Value :=
  run recordNetworkRequest ;;
  await networkResponse <- fetch request ;;
  ret (VResponse networkResponse).

Definition handleRequest (request : Request) (strategy : string) : Async Value :=
  if String.eqb strategy CACHE_STRATEGIES.CACHE_FIRST then cacheFirst request
  else if String.eqb strategy CACHE_STRATEGIES.NETWORK_FIRST then networkFirst request
  else if String.eqb strategy CACHE_STRATEGIES.STALE_WHILE_REVALIDATE then staleWhileRevalidate request
  else if String.eqb strategy CACHE_STRATEGIES.CACHE_ONLY then cacheOnly request
  else if String.eqb strategy CACHE_STRATEGIES.NETWORK_ONLY then networkOnly request
  else networkFirst request.

(** *** The fetch event *)

Definition timeoutResponse : Response :=
  mkResponse 408 "Request Timeout" "Network error" ∅.

(** What the listener does with the event: it returns without calling
    [respondWith], or calls it with a promise. *)
Inductive Intercept : Type :=
| PassThrough
| RespondWith (promise : Settled Value).

Definition onfetch (request : Request) (w : World) : World * Intercept :=
  if negb (String.eqb (method request) "GET") then (w, PassThrough)
  else if negb (String.prefix "http" (URL_protocol (url request))) then (w, PassThrough)
  else
    let strategy := getCacheStrategy (url request) in
    let (w', promise) :=
      catch (handleRequest request strategy)
            (fun error =>
               run recordError error ;;
               ret (VResponse timeoutResponse)) w in
    (w', RespondWith promise).

(** *** Messages from the page *)

Definition clearAllCaches : Async (list bool) :=
  await cacheNames <- caches_keys ;;
  Promise_all (map (fun cacheName => caches_delete cacheName) cacheNames).

Definition prefetchResources (urls : list string) : Async (list PrefetchResult.t) :=
  run caches_open DYNAMIC_CACHE ;;
  await results <- Promise_allSettled
    (map (fun url => cache_add DYNAMIC_CACHE url) urls) ;;
  ret (imap (fun index result =>
               PrefetchResult.mk
                 (urls !! index)
                 (isFulfilled result)
                 (match result with
                  | Rejected reason => Some (message reason)
                  | Fulfilled _ => None
                  end))
            results).

(** [event.data]: [payload] and [payload.urls] may be missing. *)
Record Payload : Type := mkPayload {
  urls : option (list string)
}.

Record MessageData : Type := mkMessageData {
  type : string;
  payload : option Payload
}.

Definition onmessage (data : MessageData) : Async unit :=
  if String.eqb (type data) "GET_METRICS" then
    await snapshot <- getMetrics ;;
    postMessage (METRICS_RESPONSE snapshot)
  else if String.eqb (type data) "CLEAR_CACHE" then
    catch
      (run clearAllCaches ;;
       postMessage (CACHE_CLEARED true None))
      (fun error =>
         postMessage (CACHE_CLEARED false (Some (message error))))
  else if String.eqb (type data) "PREFETCH_RESOURCES" then
    match payload data with
    | Some p =>
        match urls p with
        | Some list =>
            await results <- prefetchResources list ;;
            postMessage (PREFETCH_COMPLETE results)
        | None => ret tt
        end
    | None => ret tt
    end
  else ret tt.

(** *** Periodic cleanup *)

Definition maxAge : Z := 7 * 24 * 60 * 60 * 1000.

(** A string in a condition: every string but the empty one is true. *)
Definition truthy (text : string) : bool := negb (String.eqb text "").

(** The body of the callback mapped over the keys.  Reading [headers]
    of a response that is [undefined] throws. *)
Definition cleanupEntry (now : Z) (key : string) : Async unit :=
  await response <- cache_match DYNAMIC_CACHE key ;;
  match response with
  | None => throw (mkError "TypeError" "response is undefined")
  | Some response =>
      match headers_get "date" response with
      | Some dateHeader =>
          if truthy dateHeader then
            match Date_parse dateHeader with
            | Some responseDate =>
                if maxAge <? Z.sub now responseDate then
                  run cache_delete DYNAMIC_CACHE key ;;
                  ret tt
                else ret tt
            | None => ret tt
            end
          else ret tt
      | None => ret tt
      end
  end.

Definition performCacheCleanup : Async unit :=
  run caches_open DYNAMIC_CACHE ;;
  await requests <- cache_keys DYNAMIC_CACHE ;;
  let now := Date_now in
  run Promise_all (map (cleanupEntry now) requests) ;;
  ret tt.

Definition onperiodicsync (tag : string) : Async unit :=
  if String.eqb tag "cache-cleanup" then performCacheCleanup else ret tt.

End Worker.

(** ** The activate event *)

Section Activation.

(** How [self.clients.claim()] settles. *)
Variable clients_claim : Settled unit.

(** The callback mapped over the names of the partitions: a partition
    that is neither the static nor the dynamic one is deleted; for the
    others the callback returns [undefined]. *)
Definition deleteOld (cacheName : string) : Async (option bool) :=
  if negb (String.eqb cacheName STATIC_CACHE) && negb (String.eqb cacheName DYNAMIC_CACHE)
  then await deleted <- caches_delete cacheName ;; ret (Some deleted)
  else ret None.

(** The promise given to [event.waitUntil]. *)
Definition onactivate : Async unit :=
  catch
    (await cacheNames <- caches_keys ;;
     run Promise_all (map deleteOld cacheNames) ;;
     fun w => (w, clients_claim))
    (fun error => recordError error).

End Activation.

(** ** Vocabulary of the properties *)

(** [text] ends with [suffix]. *)
Definition endsWith (suffix text : string) : Prop :=
  exists stem, text = stem +:+ suffix.

(** [text.endsWith(suffix)]: some tail of [text] is [suffix]. *)
Fixpoint String_endsWith (suffix text : string) : bool :=
  String.eqb suffix text
  || match text with
     | EmptyString => false
     | String _ rest => String_endsWith suffix rest
     end.

(** The partitions that an activation keeps. *)
Definition current (cacheName : string) : bool :=
  String.eqb cacheName STATIC_CACHE || String.eqb cacheName DYNAMIC_CACHE.

(** The storage once [caches.open(cacheName)] has run. *)
Definition opened (cacheName : string)
           (cs : list (string * gmap string Response)) : list (string * gmap string Response) :=
  match storage_lookup cacheName cs with
  | Some _ => cs
  | None => cs ++ [(cacheName, ∅)]
  end.

(** No partition but the dynamic one holds an entry for [key]. *)
Definition onlyDynamicHolds (key : string)
           (cs : list (string * gmap string Response)) : Prop :=
  forall n c, (n, c) ∈ cs -> n <> DYNAMIC_CACHE -> c !! key = None.

(** How the fetch of an add settles for an absolute URL: it depends on
    the network alone. *)
Definition fetchSettles (network : Request -> Settled Response)
           (bad_status : Response -> Error) (absolute : string) : Settled Response :=
  match network (GET absolute) with
  | Fulfilled response =>
      if ok response && storable response then Fulfilled response
      else Rejected (bad_status response)
  | Rejected reason => Rejected reason
  end.

(** How [cache.add(key)] settles: as the fetch of the URL that [key]
    resolves to, when a request can be made of [key]. *)
Definition addSettles `{!Location} (network : Request -> Settled Response)
           (bad_status : Response -> Error) (key : string) : Settled Response :=
  match resolve key with
  | Fulfilled absolute => fetchSettles network bad_status absolute
  | Rejected reason => Rejected reason
  end.

(** The absolute URLs of the requests that can be made of [keys]. *)
Definition requestURLs `{!Location} (keys : list string) : list string :=
  omap (fun key => match resolve key with
                   | Fulfilled absolute => Some absolute
                   | Rejected _ => None
                   end) keys.

(** What a partition holds after [cache.add(key)]. *)
Definition added `{!Location} (network : Request -> Settled Response)
           (bad_status : Response -> Error)
           (key : string) (c : gmap string Response) : gmap string Response :=
  match resolve key with
  | Fulfilled absolute =>
      match fetchSettles network bad_status absolute with
      | Fulfilled response => <[absolute := response]> c
      | Rejected _ => c
      end
  | Rejected _ => c
  end.

(** The freshness timestamp of an entry, when it has a usable one: a
    [date] header that is not empty and that [Date] can read. *)
Definition freshness (Date_parse : string -> option Z) (response : Response) : option Z :=
  match headers_get "date" response with
  | Some dateHeader => if truthy dateHeader then Date_parse dateHeader else None
  | None => None
  end.

(** An entry is too old when its freshness timestamp is more than
    [maxAge] before [now]. *)
Definition tooOld (Date_parse : string -> option Z) (now : Z) (response : Response) : bool :=
  match freshness Date_parse response with
  | Some responseDate => maxAge <? now - responseDate
  | None => false
  end.

(** A computation preserves a relation between the world before and the
    world after. *)
Definition preserves {A} (R : World -> World -> Prop) (c : Async A) : Prop :=
  forall w, R w (c w).1.

(** Nothing but fetches and cache operations happened: the counters are
    the same, and so are the calls of [skipWaiting] and the replies. *)
Definition quiet (w w' : World) : Prop :=
  metrics w' = metrics w /\
  skipWaitingCalls (trace w') = skipWaitingCalls (trace w) /\
  replies (trace w') = replies (trace w).

(** The static partition holds what it held. *)
Definition sameStatic (w w' : World) : Prop :=
  partition STATIC_CACHE w' = partition STATIC_CACHE w.

(** The partition called [cacheName] holds what it held. *)
Definition samePartition (cacheName : string) (w w' : World) : Prop :=
  partition cacheName w' = partition cacheName w.

(** ** Concrete networks, requests and worlds *)

Module Sample.
(** The worker is served from [https://pocketgnu.example/sw.js]: a path
    is resolved against that origin, an absolute URL over http or https
    is itself, and a URL with another scheme is refused. *)
Definition unsupported : Error := mkError "TypeError" "Request scheme is unsupported".

#[export] Instance location : Location :=
  fun text =>
    if String.prefix "/" text then Fulfilled ("https://pocketgnu.example" +:+ text)
    else if schemeIsHttp text then Fulfilled text
    else if String_endsWith ":" (URL_protocol text) then Rejected unsupported
    else Fulfilled ("https://pocketgnu.example/" +:+ text).

(** Responses of the 2xx class that a cache refuses. *)
Definition partialContent : Response := mkResponse 206 "Partial Content" "cont" ∅.
Definition unpredictable : Response :=
  mkResponse 200 "OK" "content" {[ "vary" := "Accept-Encoding, *" ]}.
Definition ranged : Request -> Settled Response := fun _ => Fulfilled partialContent.
Definition varying : Request -> Settled Response := fun _ => Fulfilled unpredictable.

Definition failedToFetch : Error := mkError "TypeError" "Failed to fetch".
Definition requestFailed (response : Response) : Error :=
  mkError "TypeError" "Request failed".

Definition found : Response := mkResponse 200 "OK" "content" ∅.
Definition notFound : Response := mkResponse 404 "Not Found" "" ∅.
Definition stale : Response := mkResponse 200 "OK" "earlier content" ∅.

Definition online : Request -> Settled Response := fun _ => Fulfilled found.
Definition offline : Request -> Settled Response := fun _ => Rejected failedToFetch.

(** Everything is served but the critical style sheet. *)
Definition withoutCriticalCss : Request -> Settled Response :=
  fun request =>
    if String_endsWith "/css/critical.css" (url request) then Rejected failedToFetch
    else Fulfilled found.

(** Everything is served but the style sheet of the preload, which is
    answered with status 404. *)
Definition withoutStyles : Request -> Settled Response :=
  fun request =>
    if String_endsWith "/css/styles.css" (url request) then Fulfilled notFound
    else Fulfilled found.

(** The network of the prefetch scenario: [/bad-url] cannot be fetched. *)
Definition withoutBadUrl : Request -> Settled Response :=
  fun request =>
    if String_endsWith "/bad-url" (url request) then Rejected failedToFetch
    else Fulfilled found.

Definition logo : Request := GET "https://pocketgnu.example/img/logo.png".
Definition script : Request := GET "https://pocketgnu.example/js/scripts.js".
Definition api : Request := GET "https://pocketgnu.example/api/status".

Definition started : World := mkWorld [] PerformanceMonitor.initial [].

(** A world whose dynamic partition holds an earlier answer of the API. *)
Definition visited : World :=
  mkWorld [ (STATIC_CACHE, ∅); (DYNAMIC_CACHE, {[ url api := stale ]}) ]
          PerformanceMonitor.initial [].

(** Dates are counted in days from a fixed origin. *)
Definition day : Z := 24 * 60 * 60 * 1000.
Definition parseDay (text : string) : option Z :=
  if String.eqb text "day 0" then Some 0
  else if String.eqb text "day 1" then Some day
  else if String.eqb text "day 2" then Some (2 * day)
  else None.
Definition dated (text : string) : Response :=
  mkResponse 200 "OK" "content" {[ "date" := text ]}.

(** On day 8: entries of 8, 7 and 6 days, one with a date that cannot
    be read, one with an empty date and one without a date. *)
Definition aged : World :=
  mkWorld [ (DYNAMIC_CACHE,
             {[ "/eight" := dated "day 0"; "/seven" := dated "day 1";
                "/six" := dated "day 2"; "/unreadable" := dated "yesterday";
                "/empty" := dated ""; "/undated" := found ]}) ]
          PerformanceMonitor.initial [].
(** A world after an install: the static partition was opened first
    and holds a script, the dynamic partition is empty. *)
Definition utils : Request := GET "https://pocketgnu.example/js/utils.js".
Definition installed : World :=
  mkWorld [ (STATIC_CACHE, {[ url utils := stale ]}); (DYNAMIC_CACHE, ∅) ]
          PerformanceMonitor.initial [].
End Sample.

(** * Properties *)

(** ** Classification *)

Lemma firstMatching_found (patterns : list CachePattern) (u : string) (i : nat) (p : CachePattern) :
  patterns !! i = Some p ->
  RegExp.test (pattern p) u = true ->
  (forall j q, (j < i)%nat -> patterns !! j = Some q -> RegExp.test (pattern q) u = false) ->
  firstMatching patterns u = strategy p.
Proof.
  revert i. induction patterns as [|q rest IH]; intros i Hi Hp Hbefore.
  - discriminate.
  - destruct i as [|i]; simpl in *.
    + injection Hi as ->. now rewrite Hp.
    + rewrite (Hbefore 0%nat q) by (auto; lia).
      apply (IH i); auto.
      intros j q' Hj Hq'. apply (Hbefore (S j)); auto. lia.
Qed.

Lemma firstMatching_none (patterns : list CachePattern) (u : string) :
  (forall p, p ∈ patterns -> RegExp.test (pattern p) u = false) ->
  firstMatching patterns u = CACHE_STRATEGIES.NETWORK_FIRST.
Proof.
  induction patterns as [|q rest IH]; intros Hnone; simpl.
  - reflexivity.
  - rewrite (Hnone q) by constructor.
    apply IH. intros p Hp. apply Hnone. now constructor.
Qed.

(** Every list of patterns either has a first pattern that matches, or
    none that does. *)
Lemma first_match_or_none (patterns : list CachePattern) (u : string) :
  (exists i p, patterns !! i = Some p /\ RegExp.test (pattern p) u = true /\
     forall j q, (j < i)%nat -> patterns !! j = Some q -> RegExp.test (pattern q) u = false)
  \/ (forall p, p ∈ patterns -> RegExp.test (pattern p) u = false).
Proof.
  induction patterns as [|q rest IH].
  - right. intros p Hp. inversion Hp.
  - destruct (RegExp.test (pattern q) u) eqn:Hq.
    + left. exists 0%nat, q. repeat split; auto. intros j q' Hj. lia.
    + destruct IH as [(i & p & Hi & Hp & Hbefore) | Hnone].
      * left. exists (S i), p. repeat split; auto.
        intros [|j] q' Hj Hq'; simpl in Hq'.
        -- now injection Hq' as <-.
        -- apply (Hbefore j); auto. lia.
      * right. intros p Hp. inversion Hp; subst; auto.
Qed.

(** C1: the strategy assigned to a URL is that of the first pair of
    [CACHE_PATTERNS] whose pattern matches it, and network-first whenever
    no pattern of the list matches. *)
Theorem getCacheStrategy_first_match (u : string) :
  (exists i p,
      CACHE_PATTERNS !! i = Some p /\
      RegExp.test (pattern p) u = true /\
      (forall j q, (j < i)%nat -> CACHE_PATTERNS !! j = Some q ->
                   RegExp.test (pattern q) u = false) /\
      getCacheStrategy u = strategy p)
  \/ ((forall p, p ∈ CACHE_PATTERNS -> RegExp.test (pattern p) u = false) /\
      getCacheStrategy u = CACHE_STRATEGIES.NETWORK_FIRST).
Proof.
  unfold getCacheStrategy.
  destruct (first_match_or_none CACHE_PATTERNS u) as [(i & p & Hi & Hp & Hbefore) | Hnone].
  - left. exists i, p. repeat split; auto.
    now apply (firstMatching_found _ _ i).
  - right. split; auto. now apply firstMatching_none.
Qed.

(** *** What the four patterns match *)

(** Reads a pattern against an input of unknown characters: the input is
    taken apart as far as the pattern looks at it. *)
Ltac read_pattern H :=
  cbn -[Ascii.eqb] in H;
  repeat match type of H with
    | false = true => discriminate H
    | context [match ?s with EmptyString => _ | String _ _ => _ end] =>
        is_var s; destruct s; cbn -[Ascii.eqb] in H
    | context [Ascii.eqb ?a ?b] =>
        let e := fresh "e" in
        destruct (Ascii.eqb_spec a b) as [e|e];
        [try discriminate e; subst | try congruence];
        cbn -[Ascii.eqb] in H
    end.

(** Case analysis on a membership in a list that is written out. *)
Ltac one_of Hin tac :=
  repeat (let Heq := fresh "Heq" in
          apply elem_of_cons in Hin as [Heq | Hin]; [simplify_eq; tac|]);
  inversion Hin.

Lemma matchk_lit_prefix (p : string) (pos : nat) (s : string) :
  RegExp.matchk (RegExp.lit p) pos s (fun _ _ => true) = String.prefix p s.
Proof.
  revert pos s. induction p as [|c p IH]; intros pos s; simpl.
  - now destruct s.
  - destruct s as [|d s]; [reflexivity|]. simpl.
    destruct (Ascii.eqb_spec c d) as [->|Hne];
      destruct (ascii_dec _ _); first [apply IH | congruence].
Qed.

Lemma search_anchored (r : RegExp.regex) (pos : nat) (s : string) :
  RegExp.search (RegExp.Seq RegExp.Bol r) (S pos) s = false.
Proof.
  revert pos. induction s as [|c s IH]; intros pos; simpl; auto.
Qed.

(** A pattern [^literal] matches the inputs that start with the literal. *)
Lemma test_anchored_prefix (p u : string) :
  RegExp.test (RegExp.Seq RegExp.Bol (RegExp.lit p)) u = String.prefix p u.
Proof.
  unfold RegExp.test. destruct u as [|c u]; simpl.
  - rewrite matchk_lit_prefix. now rewrite orb_false_r.
  - rewrite search_anchored, orb_false_r.
    apply (matchk_lit_prefix p 0 (String c u)).
Qed.

Lemma test_google_fonts_css (u : string) :
  RegExp.test google_fonts_css u = String.prefix "https://fonts.googleapis.com" u.
Proof. apply test_anchored_prefix. Qed.

Lemma test_google_fonts_files (u : string) :
  RegExp.test google_fonts_files u = String.prefix "https://fonts.gstatic.com" u.
Proof. apply test_anchored_prefix. Qed.

(** A pattern that does not look at the position matches somewhere in
    the input when it matches the rest of the input from some index. *)
Lemma search_suffix (r : RegExp.regex) (m : string -> bool) :
  (forall pos s, RegExp.matchk r pos s (fun _ _ => true) = m s) ->
  forall pos s,
    RegExp.search r pos s = true <-> exists stem rest, s = stem +:+ rest /\ m rest = true.
Proof.
  intros Hm pos s. revert pos. induction s as [|c s IH]; intros pos; simpl; rewrite Hm.
  - rewrite orb_false_r. split.
    + intros H. now exists "", "".
    + intros (stem & rest & Hs & H). destruct stem.
      * change ("" +:+ rest) with rest in Hs. now subst.
      * discriminate Hs.
  - rewrite orb_true_iff, IH. split.
    + intros [H | (stem & rest & -> & H)].
      * now exists "", (String c s).
      * now exists (String c stem), rest.
    + intros (stem & rest & Hs & H). destruct stem as [|d stem].
      * change ("" +:+ rest) with rest in Hs. subst rest. now left.
      * change (String d stem +:+ rest) with (String d (stem +:+ rest)) in Hs.
        injection Hs as -> ->. right. now exists stem, rest.
Qed.

Lemma script_or_style_matchk (pos : nat) (s : string) :
  RegExp.matchk script_or_style pos s (fun _ _ => true)
  = bool_decide (s ∈ [".js"; ".css"]).
Proof.
  destruct (RegExp.matchk script_or_style pos s (fun _ _ => true)) eqn:H; symmetry.
  - apply bool_decide_eq_true_2. read_pattern H; repeat constructor.
  - apply bool_decide_eq_false_2. intros Hin. one_of Hin ltac:(discriminate H).
Qed.

Lemma image_matchk (pos : nat) (s : string) :
  RegExp.matchk image pos s (fun _ _ => true)
  = bool_decide (s ∈ [".png"; ".jpg"; ".jpeg"; ".svg"; ".gif"; ".webp"]).
Proof.
  destruct (RegExp.matchk image pos s (fun _ _ => true)) eqn:H; symmetry.
  - apply bool_decide_eq_true_2. read_pattern H; repeat constructor.
  - apply bool_decide_eq_false_2. intros Hin. one_of Hin ltac:(discriminate H).
Qed.

(** [/\.(?:js|css)$/] matches the URLs that end with [.js] or [.css]. *)
Lemma test_script_or_style (u : string) :
  RegExp.test script_or_style u = true <-> endsWith ".js" u \/ endsWith ".css" u.
Proof.
  unfold RegExp.test. rewrite (search_suffix _ _ script_or_style_matchk).
  unfold endsWith. split.
  - intros (stem & rest & -> & Hin). apply bool_decide_eq_true_1 in Hin.
    one_of Hin ltac:(eauto).
  - intros [[stem ->] | [stem ->]]; eexists _, _; (split; [reflexivity|]); reflexivity.
Qed.

(** [/\.(?:png|jpg|jpeg|svg|gif|webp)$/] matches the URLs that end with
    one of the six extensions. *)
Lemma test_image (u : string) :
  RegExp.test image u = true
  <-> exists extension,
      extension ∈ [".png"; ".jpg"; ".jpeg"; ".svg"; ".gif"; ".webp"] /\
      endsWith extension u.
Proof.
  unfold RegExp.test. rewrite (search_suffix _ _ image_matchk).
  unfold endsWith. split.
  - intros (stem & rest & -> & Hin). apply bool_decide_eq_true_1 in Hin. eauto.
  - intros (extension & Hin & stem & ->). exists stem, extension.
    split; [reflexivity|]. now apply bool_decide_eq_true_2.
Qed.

(** No URL matches both extension patterns. *)
Lemma image_excludes_script_or_style (s : string) (pos : nat) :
  RegExp.search image pos s = true ->
  RegExp.search script_or_style pos s = false.
Proof.
  revert pos. induction s as [|c s IH]; intros pos; [discriminate|].
  cbn [RegExp.search]. rewrite image_matchk, script_or_style_matchk.
  intros H. apply orb_true_iff in H as [Hin | Hlater].
  - apply bool_decide_eq_true_1 in Hin. one_of Hin ltac:(reflexivity).
  - rewrite (IH _ Hlater), orb_false_r.
    apply bool_decide_eq_false_2. intros Hin.
    one_of Hin ltac:(discriminate Hlater).
Qed.

(** The first two testable properties of the dispatcher. *)
Lemma script_or_style_is_stale_while_revalidate (u : string) :
  RegExp.test script_or_style u = true ->
  getCacheStrategy u = CACHE_STRATEGIES.STALE_WHILE_REVALIDATE.
Proof.
  intros H. unfold getCacheStrategy. cbn [CACHE_PATTERNS firstMatching pattern strategy].
  now rewrite H.
Qed.

Lemma image_is_cache_first (u : string) :
  RegExp.test image u = true ->
  getCacheStrategy u = CACHE_STRATEGIES.CACHE_FIRST.
Proof.
  intros H. unfold getCacheStrategy. cbn [CACHE_PATTERNS firstMatching pattern strategy].
  unfold RegExp.test in *. now rewrite (image_excludes_script_or_style _ _ H), H.
Qed.

(** ** Cache Storage and the trace *)

Lemma cachePuts_app (t1 t2 : list Event) :
  cachePuts (t1 ++ t2) = cachePuts t1 ++ cachePuts t2.
Proof. apply omap_app. Qed.

Lemma fetches_app (t1 t2 : list Event) :
  fetches (t1 ++ t2) = fetches t1 ++ fetches t2.
Proof. apply omap_app. Qed.

Lemma replies_app (t1 t2 : list Event) :
  replies (t1 ++ t2) = replies t1 ++ replies t2.
Proof. apply omap_app. Qed.

Lemma skipWaitingCalls_app (t1 t2 : list Event) :
  skipWaitingCalls (t1 ++ t2) = skipWaitingCalls t1 ++ skipWaitingCalls t2.
Proof. apply omap_app. Qed.

Lemma storage_lookup_update (cacheName : string) f (cs : list (string * gmap string Response)) :
  storage_lookup cacheName (storage_update cacheName f cs)
  = f <$> storage_lookup cacheName cs.
Proof.
  induction cs as [|[n c] rest IH]; simpl; [reflexivity|].
  destruct (String.eqb n cacheName) eqn:E; simpl; rewrite E; auto.
Qed.

Lemma storage_lookup_update_ne (cacheName other : string) f
      (cs : list (string * gmap string Response)) :
  other <> cacheName ->
  storage_lookup other (storage_update cacheName f cs) = storage_lookup other cs.
Proof.
  intros Hne. induction cs as [|[n c] rest IH]; simpl; [reflexivity|].
  destruct (String.eqb n cacheName) eqn:E; simpl.
  - apply String.eqb_eq in E. subst n.
    destruct (String.eqb cacheName other) eqn:E'; auto.
    apply String.eqb_eq in E'. congruence.
  - rewrite IH. reflexivity.
Qed.

Lemma storage_lookup_snoc (cacheName : string) (c : gmap string Response)
      (cs : list (string * gmap string Response)) :
  storage_lookup cacheName cs = None ->
  storage_lookup cacheName (cs ++ [(cacheName, c)]) = Some c.
Proof.
  induction cs as [|[n c'] rest IH]; simpl.
  - now rewrite String.eqb_refl.
  - destruct (String.eqb n cacheName); [discriminate | auto].
Qed.

(** Opening a partition changes the content of none. *)
Lemma partition_after_open (cacheName other : string) (w : World) :
  partition other (caches_open cacheName w).1 = partition other w.
Proof.
  unfold caches_open, partition.
  destruct (storage_lookup cacheName (caches w)) eqn:E; simpl; [reflexivity|].
  destruct (decide (other = cacheName)) as [->|Hne].
  - rewrite storage_lookup_snoc, E by assumption. reflexivity.
  - f_equal. clear E. induction (caches w) as [|[n c] rest IH]; simpl.
    + destruct (String.eqb cacheName other) eqn:E'; [|reflexivity].
      apply String.eqb_eq in E'. congruence.
    + now rewrite IH.
Qed.

Ltac exec :=
  unfold bind, catch, ret, throw, detached, caches_match, cache_match, cache_keys,
    fetch, caches_open, cache_put, cache_store, cache_delete, skipWaiting, postMessage,
    recordCacheHit, recordCacheMiss, recordNetworkRequest, recordError,
    getMetrics;
  simpl.

Ltac trace_simpl :=
  simpl;
  rewrite ?cachePuts_app, ?fetches_app, ?replies_app, ?skipWaitingCalls_app;
  simpl; rewrite ?app_nil_r.

(** ** Strategies *)

Section Strategies.
Variable network : Request -> Settled Response.

(** Storing a response leaves it in the dynamic partition. *)
Lemma partition_after_put (key : string) (response : Response)
      (cs : list (string * gmap string Response)) :
  default ∅ (storage_lookup DYNAMIC_CACHE
    (storage_update DYNAMIC_CACHE (insert key response)
       (match storage_lookup DYNAMIC_CACHE cs with
        | Some _ => cs
        | None => cs ++ [(DYNAMIC_CACHE, ∅)]
        end))) !! key = Some response.
Proof.
  rewrite storage_lookup_update.
  destruct (storage_lookup DYNAMIC_CACHE cs) eqn:E.
  - rewrite E. simpl. apply lookup_insert_eq.
  - rewrite storage_lookup_snoc by assumption. simpl. apply lookup_insert_eq.
Qed.


(** C3: network-first with the network down: the cached entry is
    returned and a hit recorded, without an error; without a cached
    entry a miss is recorded and the failure of the fetch is
    rethrown. *)
Theorem networkFirst_offline (request : Request) (error : Error) (w : World) :
  network request = Rejected error ->
  (forall cachedResponse,
      storage_match (url request) (caches w) = Some cachedResponse ->
      exists w',
        networkFirst network request w = (w', Fulfilled (VResponse cachedResponse)) /\
        cacheHits (metrics w') = cacheHits (metrics w) + 1 /\
        cacheMisses (metrics w') = cacheMisses (metrics w) /\
        errors (metrics w') = errors (metrics w) /\
        caches w' = caches w)
  /\ (storage_match (url request) (caches w) = None ->
      exists w',
        networkFirst network request w = (w', Rejected error) /\
        cacheMisses (metrics w') = cacheMisses (metrics w) + 1 /\
        cacheHits (metrics w') = cacheHits (metrics w) /\
        caches w' = caches w).
Proof.
  intros Hnet. unfold networkFirst. exec. rewrite Hnet. simpl.
  split; [intros cachedResponse Hcached | intros Hcached];
    rewrite Hcached; simpl;
    (eexists; split; [reflexivity|]); simpl; repeat split; auto.
Qed.

(** Stale-while-revalidate without a cached entry, the network up: the
    handler returns what the fetch returned and records a miss and a
    network request. *)
Lemma staleWhileRevalidate_miss_online (request : Request) (networkResponse : Response) (w : World) :
  storage_match (url request) (caches w) = None ->
  network request = Fulfilled networkResponse ->
  exists w',
    staleWhileRevalidate network request w = (w', Fulfilled (VResponse networkResponse)) /\
    fetches (trace w') = fetches (trace w) ++ [request] /\
    cacheMisses (metrics w') = cacheMisses (metrics w) + 1 /\
    networkRequests (metrics w') = networkRequests (metrics w) + 1.
Proof.
  intros Hmiss Hnet. unfold staleWhileRevalidate. exec.
  rewrite Hmiss, Hnet. simpl.
  destruct (ok networkResponse); simpl;
    [destruct (putAccepts request networkResponse);
     destruct (storage_lookup DYNAMIC_CACHE (caches w)); simpl|];
    (eexists; split; [reflexivity|]); trace_simpl; repeat split; auto.
Qed.

(** With a cached entry the failure of the revalidation is swallowed:
    the cached entry is returned and a hit recorded. *)
Lemma staleWhileRevalidate_hit_offline (request : Request) (cachedResponse : Response)
      (error : Error) (w : World) :
  storage_match (url request) (caches w) = Some cachedResponse ->
  network request = Rejected error ->
  exists w',
    staleWhileRevalidate network request w = (w', Fulfilled (VResponse cachedResponse)) /\
    cacheHits (metrics w') = cacheHits (metrics w) + 1 /\
    errors (metrics w') = errors (metrics w) /\
    caches w' = caches w.
Proof.
  intros Hhit Hnet. unfold staleWhileRevalidate. exec.
  rewrite Hhit, Hnet. simpl.
  eexists; split; [reflexivity|]. simpl. repeat split; auto.
Qed.

(** C4, what the code does: stale-while-revalidate without a cached
    entry and with the network down fulfils with [null].  The failure
    of the fetch is caught by the handler attached to [fetchPromise]
    and is not rethrown; the miss and the network request are
    recorded and the error counter is left alone. *)
Theorem staleWhileRevalidate_miss_offline_null (request : Request) (error : Error) (w : World) :
  storage_match (url request) (caches w) = None ->
  network request = Rejected error ->
  exists w',
    staleWhileRevalidate network request w = (w', Fulfilled VNull) /\
    (forall w'' reason,
        staleWhileRevalidate network request w <> (w'', Rejected reason)) /\
    fetches (trace w') = fetches (trace w) ++ [request] /\
    cacheMisses (metrics w') = cacheMisses (metrics w) + 1 /\
    networkRequests (metrics w') = networkRequests (metrics w) + 1 /\
    errors (metrics w') = errors (metrics w).
Proof.
  intros Hmiss Hnet. unfold staleWhileRevalidate. exec.
  rewrite Hmiss, Hnet. simpl.
  eexists; split; [reflexivity|]. trace_simpl.
  repeat split; auto.
Qed.

(** C5: cache-only without a cached entry: the call is rejected with
    the "not in cache" error and a miss is recorded; nothing is
    fetched and nothing is written. *)
Theorem cacheOnly_miss (request : Request) (w : World) :
  storage_match (url request) (caches w) = None ->
  exists w',
    cacheOnly request w = (w', Rejected (mkError "Error" "Resource not in cache")) /\
    cacheMisses (metrics w') = cacheMisses (metrics w) + 1 /\
    cacheHits (metrics w') = cacheHits (metrics w) /\
    networkRequests (metrics w') = networkRequests (metrics w) /\
    trace w' = trace w /\
    caches w' = caches w.
Proof.
  intros Hmiss. unfold cacheOnly. exec. rewrite Hmiss. simpl.
  eexists; split; [reflexivity|]. simpl. repeat split; auto.
Qed.

End Strategies.

(** ** Frames *)

Section Frame.
Variable R : World -> World -> Prop.
Hypothesis R_refl : forall w, R w w.
Hypothesis R_trans : forall w1 w2 w3, R w1 w2 -> R w2 w3 -> R w1 w3.

Lemma preserves_ret {A} (a : A) : preserves R (ret a).
Proof. intros w. apply R_refl. Qed.

Lemma preserves_throw {A} (e : Error) : preserves R (@throw A e).
Proof. intros w. apply R_refl. Qed.

Lemma preserves_bind {A B} (c : Async A) (k : A -> Async B) :
  preserves R c -> (forall a, preserves R (k a)) -> preserves R (bind c k).
Proof.
  intros Hc Hk w. unfold bind. specialize (Hc w).
  destruct (c w) as [w1 [a|e]]; simpl in *; auto.
  eapply R_trans; [exact Hc | apply Hk].
Qed.

Lemma preserves_catch {A} (c : Async A) (h : Error -> Async A) :
  preserves R c -> (forall e, preserves R (h e)) -> preserves R (catch c h).
Proof.
  intros Hc Hh w. unfold catch. specialize (Hc w).
  destruct (c w) as [w1 [a|e]]; simpl in *; auto.
  eapply R_trans; [exact Hc | apply Hh].
Qed.

Lemma preserves_Promise_all {A} (ps : list (Async A)) :
  Forall (preserves R) ps -> preserves R (Promise_all ps).
Proof.
  induction 1 as [|p rest Hp _ IH]; intros w; simpl.
  - apply R_refl.
  - specialize (Hp w). destruct (p w) as [w1 r1]. specialize (IH w1).
    destruct (Promise_all rest w1) as [w2 r2]. simpl in *.
    eapply R_trans; eauto.
Qed.

Lemma settleAll_preserves {A} (ps : list (Async A)) (w : World) :
  Forall (preserves R) ps -> R w (settleAll ps w).1.
Proof.
  intros H. revert w. induction H as [|p rest Hp _ IH]; intros w; simpl.
  - apply R_refl.
  - specialize (Hp w). destruct (p w) as [w1 r1]. specialize (IH w1).
    destruct (settleAll rest w1) as [w2 l]. simpl in *.
    eapply R_trans; eauto.
Qed.

Lemma preserves_Promise_allSettled {A} (ps : list (Async A)) :
  Forall (preserves R) ps -> preserves R (Promise_allSettled ps).
Proof.
  intros H w. unfold Promise_allSettled.
  pose proof (settleAll_preserves ps w H) as Hs.
  destruct (settleAll ps w) as [w' l]. exact Hs.
Qed.
End Frame.

Lemma quiet_refl (w : World) : quiet w w.
Proof. repeat split. Qed.

Lemma quiet_trans (w1 w2 w3 : World) : quiet w1 w2 -> quiet w2 w3 -> quiet w1 w3.
Proof.
  intros (Hm & Hs & Hr) (Hm' & Hs' & Hr'). repeat split; congruence.
Qed.

Lemma settleAll_length {A} (ps : list (Async A)) (w : World) :
  length (settleAll ps w).2 = length ps.
Proof.
  revert w. induction ps as [|p rest IH]; intros w; simpl; [reflexivity|].
  destruct (p w) as [w1 r1]. specialize (IH w1).
  destruct (settleAll rest w1) as [w2 l]. simpl in *. now rewrite IH.
Qed.

Lemma Promise_all_rejects {A} (ps : list (Async A)) (p : Async A) (w : World) :
  p ∈ ps ->
  (forall w0, isFulfilled (p w0).2 = false) ->
  isFulfilled (Promise_all ps w).2 = false.
Proof.
  intros Hin Hp. revert w. induction Hin as [p rest | p q rest _ IH]; intros w; simpl.
  - specialize (Hp w). destruct (p w) as [w1 [a|e]]; [discriminate|].
    now destruct (Promise_all rest w1).
  - destruct (q w) as [w1 r1]. specialize (IH Hp w1).
    destruct (Promise_all rest w1) as [w2 [l|e]]; [discriminate|].
    now destruct r1.
Qed.

Lemma Promise_all_fulfils {A} (ps : list (Async A)) (w : World) :
  (forall p w0, p ∈ ps -> isFulfilled (p w0).2 = true) ->
  isFulfilled (Promise_all ps w).2 = true.
Proof.
  revert w. induction ps as [|q rest IH]; intros w Hall; simpl; [reflexivity|].
  pose proof (Hall q w (list_elem_of_here _ _)) as Hq.
  destruct (q w) as [w1 [a|e]]; [|discriminate].
  assert (Hrest : isFulfilled (Promise_all rest w1).2 = true).
  { apply IH. intros p w0 Hp. apply Hall. now constructor. }
  now destruct (Promise_all rest w1) as [w2 [l|e]].
Qed.

(** ** Install *)

Section Install.
Context {here : Location}.
Variable network : Request -> Settled Response.
Variable bad_status : Response -> Error.

Lemma fetch_ok_settles (absolute : string) (w : World) :
  (fetch_ok network bad_status absolute w).2 = fetchSettles network bad_status absolute.
Proof.
  unfold fetch_ok, fetchSettles. exec.
  destruct (network (GET absolute)) as [r|e]; simpl; [|reflexivity].
  now destruct (ok r && storable r).
Qed.

Lemma fetch_ok_quiet (absolute : string) :
  preserves quiet (fetch_ok network bad_status absolute).
Proof.
  intros w. unfold fetch_ok. exec.
  destruct (network (GET absolute)) as [r|e]; simpl;
    [destruct (ok r && storable r)|];
    unfold quiet; trace_simpl; auto.
Qed.

(** The requests of an [addAll] are made without a change of the world:
    all of them, or the first refusal. *)
Lemma Promise_all_requestOf (keys : list string) (w : World) :
  (Promise_all (map requestOf keys) w).1 = w /\
  match (Promise_all (map requestOf keys) w).2 with
  | Fulfilled absolutes =>
      Forall2 (fun key absolute => resolve key = Fulfilled absolute) keys absolutes
  | Rejected _ => exists key, key ∈ keys /\ isFulfilled (resolve key) = false
  end.
Proof.
  induction keys as [|key rest [IHw IHr]]; simpl.
  - split; [reflexivity | constructor].
  - change (requestOf key w) with (w, resolve key).
    destruct (Promise_all (map requestOf rest) w) as [w2 r2]. simpl in *.
    split; [assumption|].
    destruct (resolve key) as [absolute|e] eqn:Hkey.
    + destruct r2 as [absolutes|e].
      * now constructor.
      * destruct IHr as (k & Hk & Hno). exists k. split; [now constructor | assumption].
    + exists key. split; [constructor | now rewrite Hkey].
Qed.

Lemma Promise_all_requestOf_quiet (keys : list string) :
  preserves quiet (Promise_all (map requestOf keys)).
Proof.
  intros w. rewrite (proj1 (Promise_all_requestOf keys w)). apply quiet_refl.
Qed.

Lemma addSettles_resolved (key absolute : string) :
  resolve key = Fulfilled absolute ->
  addSettles network bad_status key = fetchSettles network bad_status absolute.
Proof. intros H. unfold addSettles. now rewrite H. Qed.

Lemma addSettles_fulfilled (key : string) :
  isFulfilled (addSettles network bad_status key) = true ->
  isFulfilled (resolve key) = true.
Proof. unfold addSettles. now destruct (resolve key). Qed.

Lemma caches_open_quiet (cacheName : string) : preserves quiet (caches_open cacheName).
Proof.
  intros w. unfold caches_open.
  destruct (storage_lookup cacheName (caches w)); repeat split.
Qed.

Lemma cache_store_quiet (cacheName key : string) (response : Response) :
  preserves quiet (cache_store cacheName key response).
Proof. intros w. unfold quiet. exec. trace_simpl. auto. Qed.

Lemma cache_put_quiet (cacheName : string) (request : Request) (response : Response) :
  preserves quiet (cache_put cacheName request response).
Proof.
  intros w. unfold quiet. exec.
  destruct (putAccepts request response); trace_simpl; auto.
Qed.

Lemma cache_add_quiet (cacheName key : string) :
  preserves quiet (cache_add network bad_status cacheName key).
Proof.
  apply (preserves_bind quiet quiet_trans).
  - intros w. apply quiet_refl.
  - intros absolute. apply (preserves_bind quiet quiet_trans).
    + apply fetch_ok_quiet.
    + intros response. apply cache_store_quiet.
Qed.

Lemma putAll_quiet (cacheName : string) (entries : list (string * Response)) :
  preserves quiet (putAll cacheName entries).
Proof.
  induction entries as [|[key response] rest IH]; simpl.
  - apply preserves_ret, quiet_refl.
  - apply (preserves_bind quiet quiet_trans); [apply cache_store_quiet | auto].
Qed.

Lemma cache_addAll_quiet (cacheName : string) (keys : list string) :
  preserves quiet (cache_addAll network bad_status cacheName keys).
Proof.
  apply (preserves_bind quiet quiet_trans); [apply Promise_all_requestOf_quiet|].
  intros absolutes. apply (preserves_bind quiet quiet_trans).
  - apply (preserves_Promise_all quiet quiet_refl quiet_trans).
    apply Forall_forall. intros p Hp.
    apply list_elem_of_fmap in Hp as (absolute & -> & _). apply fetch_ok_quiet.
  - intros responses. apply putAll_quiet.
Qed.

Lemma cacheCritical_quiet : preserves quiet (cacheCritical network bad_status).
Proof.
  apply (preserves_bind quiet quiet_trans).
  - apply caches_open_quiet.
  - intros _. apply cache_addAll_quiet.
Qed.

Lemma preloadStatic_quiet : preserves quiet (preloadStatic network bad_status).
Proof.
  apply (preserves_bind quiet quiet_trans); [apply caches_open_quiet|].
  intros _. apply (preserves_bind quiet quiet_trans).
  - apply (preserves_Promise_allSettled quiet quiet_refl quiet_trans).
    apply Forall_forall. intros p Hp.
    apply list_elem_of_fmap in Hp as (key & -> & _).
    apply (preserves_catch quiet quiet_trans); [apply cache_add_quiet|].
    intros e. apply preserves_ret, quiet_refl.
  - intros l. apply preserves_ret, quiet_refl.
Qed.

(** The preload never rejects, whatever the network does. *)
Lemma preloadStatic_fulfils (w : World) :
  (preloadStatic network bad_status w).2 = Fulfilled tt.
Proof.
  unfold preloadStatic, bind, Promise_allSettled.
  destruct (caches_open DYNAMIC_CACHE w) as [w1 [[]|e]] eqn:E.
  - now destruct (settleAll _ w1).
  - unfold caches_open in E. destruct (storage_lookup _ _); discriminate.
Qed.

(** One resource that cannot be added rejects the whole [addAll]. *)
Lemma cache_addAll_rejects (cacheName : string) (keys : list string) (key : string) (w : World) :
  key ∈ keys ->
  isFulfilled (addSettles network bad_status key) = false ->
  isFulfilled (cache_addAll network bad_status cacheName keys w).2 = false.
Proof.
  intros Hin Hfail. unfold cache_addAll, bind.
  destruct (Promise_all_requestOf keys w) as [Hw Hmade].
  destruct (Promise_all (map requestOf keys) w) as [w1 [absolutes|e]];
    simpl in Hw, Hmade; [subst w1 | reflexivity].
  apply list_elem_of_lookup_1 in Hin as [i Hi].
  destruct (Forall2_lookup_l _ _ _ _ _ Hmade Hi) as (absolute & Hi' & Hkey).
  rewrite (addSettles_resolved _ _ Hkey) in Hfail.
  assert (Hrej : isFulfilled
            (Promise_all (map (fetch_ok network bad_status) absolutes) w).2 = false).
  { apply (Promise_all_rejects _ (fetch_ok network bad_status absolute)).
    - apply (list_elem_of_fmap_2 (fetch_ok network bad_status)).
      now apply list_elem_of_lookup_2 with i.
    - intros w0. now rewrite fetch_ok_settles. }
  destruct (Promise_all _ w) as [w2 [l|e]]; [discriminate | reflexivity].
Qed.

Lemma putAll_fulfils (cacheName : string) (entries : list (string * Response)) (w : World) :
  (putAll cacheName entries w).2 = Fulfilled tt.
Proof.
  revert w. induction entries as [|[key response] rest IH]; intros w; simpl; auto.
  unfold bind. simpl. apply IH.
Qed.

Lemma cache_addAll_fulfils (cacheName : string) (keys : list string) (w : World) :
  (forall key, key ∈ keys -> isFulfilled (addSettles network bad_status key) = true) ->
  (cache_addAll network bad_status cacheName keys w).2 = Fulfilled tt.
Proof.
  intros Hall. unfold cache_addAll, bind.
  destruct (Promise_all_requestOf keys w) as [Hw Hmade].
  destruct (Promise_all (map requestOf keys) w) as [w1 [absolutes|e]];
    simpl in Hw, Hmade; subst w1.
  - assert (Hful : isFulfilled
              (Promise_all (map (fetch_ok network bad_status) absolutes) w).2 = true).
    { apply Promise_all_fulfils. intros p w0 Hp.
      apply list_elem_of_fmap in Hp as (absolute & -> & Hin).
      apply list_elem_of_lookup_1 in Hin as [i Hi].
      destruct (Forall2_lookup_r _ _ _ _ _ Hmade Hi) as (key & Hi' & Hkey).
      rewrite fetch_ok_settles, <- (addSettles_resolved _ _ Hkey).
      apply Hall. now apply list_elem_of_lookup_2 with i. }
    destruct (Promise_all _ w) as [w2 [l|e]]; [|discriminate].
    apply putAll_fulfils.
  - destruct Hmade as (key & Hin & Hno).
    now rewrite (addSettles_fulfilled key (Hall key Hin)) in Hno.
Qed.

Lemma caches_open_fulfils (cacheName : string) (w : World) :
  (caches_open cacheName w).2 = Fulfilled tt.
Proof. unfold caches_open. now destruct (storage_lookup _ _). Qed.

Lemma cacheCritical_rejects (key : string) (w : World) :
  key ∈ CRITICAL_RESOURCES ->
  isFulfilled (addSettles network bad_status key) = false ->
  isFulfilled (cacheCritical network bad_status w).2 = false.
Proof.
  intros Hin Hfail. unfold cacheCritical, bind.
  destruct (caches_open STATIC_CACHE w) as [w1 [[]|e]]; [|reflexivity].
  now apply (cache_addAll_rejects _ _ key).
Qed.

Lemma cacheCritical_fulfils (w : World) :
  (forall key, key ∈ CRITICAL_RESOURCES ->
               isFulfilled (addSettles network bad_status key) = true) ->
  (cacheCritical network bad_status w).2 = Fulfilled tt.
Proof.
  intros Hall. unfold cacheCritical, bind.
  pose proof (caches_open_fulfils STATIC_CACHE w) as Hopen.
  destruct (caches_open STATIC_CACHE w) as [w1 r]. simpl in Hopen. subst r.
  now apply cache_addAll_fulfils.
Qed.

Lemma sameStatic_refl (w : World) : sameStatic w w.
Proof. reflexivity. Qed.

Lemma sameStatic_trans (w1 w2 w3 : World) :
  sameStatic w1 w2 -> sameStatic w2 w3 -> sameStatic w1 w3.
Proof. unfold sameStatic. congruence. Qed.

Lemma fetch_ok_sameStatic (absolute : string) :
  preserves sameStatic (fetch_ok network bad_status absolute).
Proof.
  intros w. unfold fetch_ok. exec.
  destruct (network (GET absolute)) as [r|e]; simpl;
    [destruct (ok r && storable r)|]; reflexivity.
Qed.

Lemma cache_store_dynamic_sameStatic (key : string) (response : Response) :
  preserves sameStatic (cache_store DYNAMIC_CACHE key response).
Proof.
  intros w. unfold sameStatic, partition. simpl.
  now rewrite storage_lookup_update_ne.
Qed.

(** An [addAll] that rejects has stored nothing. *)
Lemma cache_addAll_rejected_sameStatic (cacheName : string) (keys : list string) (w : World) :
  isFulfilled (cache_addAll network bad_status cacheName keys w).2 = false ->
  sameStatic w (cache_addAll network bad_status cacheName keys w).1.
Proof.
  unfold cache_addAll, bind. intros Hrej.
  destruct (Promise_all_requestOf keys w) as [Hw _].
  destruct (Promise_all (map requestOf keys) w) as [w0 [absolutes|e]];
    simpl in Hw; subst w0; [|apply sameStatic_refl].
  pose proof (preserves_Promise_all sameStatic sameStatic_refl sameStatic_trans
                (map (fetch_ok network bad_status) absolutes)) as Hall.
  specialize (Hall ltac:(apply Forall_forall; intros p Hp;
                         apply list_elem_of_fmap in Hp as (absolute & -> & _);
                         apply fetch_ok_sameStatic) w).
  destruct (Promise_all _ w) as [w1 [l|e]]; [|exact Hall].
  now rewrite putAll_fulfils in Hrej.
Qed.

Lemma preloadStatic_sameStatic : preserves sameStatic (preloadStatic network bad_status).
Proof.
  apply (preserves_bind sameStatic sameStatic_trans).
  { intros w. apply partition_after_open. }
  intros _. apply (preserves_bind sameStatic sameStatic_trans).
  - apply (preserves_Promise_allSettled sameStatic sameStatic_refl sameStatic_trans).
    apply Forall_forall. intros p Hp.
    apply list_elem_of_fmap in Hp as (key & -> & _).
    apply (preserves_catch sameStatic sameStatic_trans).
    + apply (preserves_bind sameStatic sameStatic_trans);
        [intros w; apply sameStatic_refl|].
      intros absolute. apply (preserves_bind sameStatic sameStatic_trans).
      * apply fetch_ok_sameStatic.
      * intros response. apply cache_store_dynamic_sameStatic.
    + intros e. apply preserves_ret, sameStatic_refl.
  - intros l. apply preserves_ret, sameStatic_refl.
Qed.

Lemma cacheCritical_rejected_sameStatic (w : World) :
  isFulfilled (cacheCritical network bad_status w).2 = false ->
  sameStatic w (cacheCritical network bad_status w).1.
Proof.
  unfold cacheCritical, bind.
  pose proof (partition_after_open STATIC_CACHE STATIC_CACHE w) as Hopen.
  pose proof (caches_open_fulfils STATIC_CACHE w) as Hful.
  destruct (caches_open STATIC_CACHE w) as [w1 r]. simpl in Hopen, Hful. subst r.
  intros Hrej. eapply sameStatic_trans; [exact Hopen|].
  now apply cache_addAll_rejected_sameStatic.
Qed.

(** C7, what the code does: when a critical resource cannot be cached,
    the handler at the end of the chain records the error and returns
    normally, so that the promise given to [waitUntil] is fulfilled;
    [skipWaiting] is not called and the static partition has received
    nothing. *)
Theorem oninstall_critical_failure_is_swallowed (key : string) (w : World) :
  key ∈ CRITICAL_RESOURCES ->
  isFulfilled (addSettles network bad_status key) = false ->
  exists w',
    oninstall network bad_status w = (w', Fulfilled tt) /\
    isFulfilled (oninstall network bad_status w).2 = true /\
    errors (metrics w') = errors (metrics w) + 1 /\
    skipWaitingCalls (trace w') = skipWaitingCalls (trace w) /\
    partition STATIC_CACHE w' = partition STATIC_CACHE w.
Proof.
  intros Hin Hfail.
  pose proof (cacheCritical_rejects key w Hin Hfail) as Hrej.
  pose proof (cacheCritical_quiet w) as Hq1.
  pose proof (cacheCritical_rejected_sameStatic w Hrej) as Hs1.
  unfold oninstall, catch, bind. simpl.
  destruct (cacheCritical network bad_status w) as [w1 [[]|e]];
    [discriminate|]. simpl in Hq1, Hs1.
  pose proof (preloadStatic_quiet w1) as Hq2.
  pose proof (preloadStatic_sameStatic w1) as Hs2.
  destruct (preloadStatic network bad_status w1) as [w2 r2]. simpl in Hq2, Hs2.
  destruct (quiet_trans _ _ _ Hq1 Hq2) as (Hm & Hs & _).
  pose proof (sameStatic_trans _ _ _ Hs1 Hs2) as Hstatic.
  eexists. split; [reflexivity|]. simpl. rewrite Hm. auto.
Qed.

(** The other half of the install contract: with every critical
    resource cached, the install succeeds and calls [skipWaiting],
    whatever happens to the resources of the preload. *)
Lemma oninstall_tolerates_preload_failures (w : World) :
  (forall key, key ∈ CRITICAL_RESOURCES ->
               isFulfilled (addSettles network bad_status key) = true) ->
  exists w',
    oninstall network bad_status w = (w', Fulfilled tt) /\
    errors (metrics w') = errors (metrics w) /\
    skipWaitingCalls (trace w') = skipWaitingCalls (trace w) ++ [tt].
Proof.
  intros Hall.
  pose proof (cacheCritical_fulfils w Hall) as Hful.
  pose proof (cacheCritical_quiet w) as Hq1.
  unfold oninstall, catch, bind. simpl.
  destruct (cacheCritical network bad_status w) as [w1 r1].
  simpl in Hful, Hq1. subst r1.
  pose proof (preloadStatic_quiet w1) as Hq2.
  pose proof (preloadStatic_fulfils w1) as Hful2.
  destruct (preloadStatic network bad_status w1) as [w2 r2].
  simpl in Hq2, Hful2. subst r2.
  destruct (quiet_trans _ _ _ Hq1 Hq2) as (Hm & Hs & _).
  eexists. split; [reflexivity|]. unfold skipWaiting. trace_simpl.
  rewrite Hm, Hs. auto.
Qed.
End Install.

(** ** The fetch event *)

Section FetchEvent.
Variable network : Request -> Settled Response.

(** Whatever the handler does, the promise given to [respondWith] is
    never a rejected one. *)
Lemma onfetch_never_rejects (request : Request) (w w' : World) (error : Error) :
  onfetch network request w <> (w', RespondWith (Rejected error)).
Proof.
  unfold onfetch.
  destruct (negb (String.eqb (method request) "GET")); [discriminate|].
  destruct (negb (String.prefix "http" (URL_protocol (url request)))); [discriminate|].
  unfold catch.
  destruct (handleRequest network request _ w) as [w1 [v|e]]; discriminate.
Qed.

(** C6: for a GET request over http(s), a rejection of the strategy
    handler is answered with the synthetic response of status 408 and
    counted as an error; it does not reach [respondWith]. *)
Theorem onfetch_rejection_becomes_408 (request : Request) (w w1 : World) (error : Error) :
  method request = "GET" ->
  String.prefix "http" (URL_protocol (url request)) = true ->
  handleRequest network request (getCacheStrategy (url request)) w = (w1, Rejected error) ->
  exists w' response,
    onfetch network request w = (w', RespondWith (Fulfilled (VResponse response))) /\
    status response = 408 /\
    errors (metrics w') = errors (metrics w1) + 1 /\
    cacheHits (metrics w') = cacheHits (metrics w1) /\
    cacheMisses (metrics w') = cacheMisses (metrics w1) /\
    networkRequests (metrics w') = networkRequests (metrics w1) /\
    caches w' = caches w1 /\
    trace w' = trace w1 /\
    (forall w'' reason, onfetch network request w <> (w'', RespondWith (Rejected reason))).
Proof.
  intros Hget Hhttp Hrej. unfold onfetch.
  rewrite Hget, Hhttp. simpl. unfold catch. rewrite Hrej. exec.
  eexists. exists timeoutResponse. split; [reflexivity|].
  repeat split; auto.
Qed.

(** Requests that the listener leaves to the browser. *)
Lemma onfetch_ignores_non_GET (request : Request) (w : World) :
  method request <> "GET" -> onfetch network request w = (w, PassThrough).
Proof.
  intros Hm. unfold onfetch.
  destruct (String.eqb (method request) "GET") eqn:E; [|reflexivity].
  now apply String.eqb_eq in E.
Qed.
End FetchEvent.

(** ** Messages *)

Section Messages.
Context {here : Location}.
Variable network : Request -> Settled Response.
Variable bad_status : Response -> Error.

(** [cache.add] fulfils or rejects as its fetch does. *)
Lemma cache_add_settles (cacheName key : string) (w : World) :
  (cache_add network bad_status cacheName key w).2
  = match addSettles network bad_status key with
    | Fulfilled _ => Fulfilled tt
    | Rejected reason => Rejected reason
    end.
Proof.
  unfold cache_add, bind, requestOf, addSettles.
  destruct (resolve key) as [absolute|e]; [|reflexivity].
  pose proof (fetch_ok_settles network bad_status absolute w) as H.
  destruct (fetch_ok network bad_status absolute w) as [w1 r]. simpl in H. subst r.
  now destruct (fetchSettles network bad_status absolute).
Qed.

Lemma settleAll_cache_add (cacheName : string) (urls : list string) (w : World) :
  (settleAll (map (fun url => cache_add network bad_status cacheName url) urls) w).2
  = map (fun url =>
           match addSettles network bad_status url with
           | Fulfilled _ => Fulfilled tt
           | Rejected reason => Rejected reason
           end) urls.
Proof.
  revert w. induction urls as [|u rest IH]; intros w; simpl; [reflexivity|].
  pose proof (cache_add_settles cacheName u w) as Hu.
  destruct (cache_add network bad_status cacheName u w) as [w1 r1].
  specialize (IH w1).
  destruct (settleAll _ w1) as [w2 l]. simpl in *. now rewrite Hu, IH.
Qed.

Lemma prefetchResources_quiet (urls : list string) :
  preserves quiet (prefetchResources network bad_status urls).
Proof.
  apply (preserves_bind quiet quiet_trans); [apply caches_open_quiet|].
  intros _. apply (preserves_bind quiet quiet_trans).
  - apply (preserves_Promise_allSettled quiet quiet_refl quiet_trans).
    apply Forall_forall. intros p Hp.
    apply list_elem_of_fmap in Hp as (key & -> & _). apply cache_add_quiet.
  - intros l. apply preserves_ret, quiet_refl.
Qed.

(** The records computed for a list of URLs. *)
Lemma prefetchResources_results (urls : list string) (w : World) :
  exists w' results,
    prefetchResources network bad_status urls w = (w', Fulfilled results) /\
    length results = length urls /\
    forall i u,
      urls !! i = Some u ->
      (forall response,
          addSettles network bad_status u = Fulfilled response ->
          results !! i = Some (PrefetchResult.mk (Some u) true None)) /\
      (forall reason,
          addSettles network bad_status u = Rejected reason ->
          results !! i = Some (PrefetchResult.mk (Some u) false (Some (message reason)))).
Proof.
  unfold prefetchResources, bind, Promise_allSettled.
  pose proof (caches_open_fulfils DYNAMIC_CACHE w) as Hopen.
  destruct (caches_open DYNAMIC_CACHE w) as [w1 r]. simpl in Hopen. subst r.
  pose proof (settleAll_cache_add DYNAMIC_CACHE urls w1) as Hres.
  destruct (settleAll _ w1) as [w2 l]. simpl in Hres. subst l.
  eexists. eexists. split; [reflexivity|]. split.
  - now rewrite length_imap, length_map.
  - intros i u Hu. rewrite list_lookup_imap.
    change (map ?f urls) with (f <$> urls).
    rewrite list_lookup_fmap, Hu. simpl.
    split; intros x Hx; rewrite Hx; reflexivity.
Qed.

(** C9: the reply to [PREFETCH_RESOURCES] with a list of URLs is one
    [PREFETCH_COMPLETE] message with one record per URL, in the order
    of the URLs; the record of a URL that was added is
    [{url, success: true, error: null}] and the record of a URL whose
    add failed is [{url, success: false, error}] with the message of
    the failure. *)
Theorem prefetch_reply_per_url (list : list string) (w : World) :
  exists w' results,
    onmessage network bad_status
      (mkMessageData "PREFETCH_RESOURCES" (Some (mkPayload (Some list)))) w
    = (w', Fulfilled tt) /\
    replies (trace w') = replies (trace w) ++ [PREFETCH_COMPLETE results] /\
    length results = length list /\
    forall i u,
      list !! i = Some u ->
      (forall response,
          addSettles network bad_status u = Fulfilled response ->
          results !! i = Some (PrefetchResult.mk (Some u) true None)) /\
      (forall reason,
          addSettles network bad_status u = Rejected reason ->
          results !! i = Some (PrefetchResult.mk (Some u) false (Some (message reason)))).
Proof.
  destruct (prefetchResources_results list w) as (w1 & results & Hrun & Hlen & Hrec).
  pose proof (prefetchResources_quiet list w) as (_ & _ & Hreplies).
  unfold onmessage. simpl. unfold bind. rewrite Hrun in *. simpl in Hreplies.
  eexists. exists results. split; [reflexivity|].
  unfold postMessage. trace_simpl. rewrite Hreplies. auto.
Qed.

(** C10: a [PREFETCH_RESOURCES] message without a payload, or with a
    payload that has no [urls], changes nothing and posts nothing. *)
Theorem prefetch_without_urls_gets_no_reply (data : MessageData) (w : World) :
  type data = "PREFETCH_RESOURCES" ->
  (payload data = None \/ exists p, payload data = Some p /\ urls p = None) ->
  onmessage network bad_status data w = (w, Fulfilled tt) /\
  replies (trace (onmessage network bad_status data w).1) = replies (trace w).
Proof.
  intros Htype Hmissing.
  assert (Hrun : onmessage network bad_status data w = (w, Fulfilled tt)).
  { unfold onmessage. rewrite Htype. simpl.
    destruct Hmissing as [-> | (p & -> & ->)]; reflexivity. }
  now rewrite Hrun.
Qed.
End Messages.

(** ** Periodic cleanup *)

Section Cleanup.
Variable Date_now : Z.
Variable Date_parse : string -> option Z.

Lemma maxAge_is_7_days : maxAge = 604800000.
Proof. reflexivity. Qed.

Lemma partition_after_delete (cacheName key : string) (w : World) :
  partition cacheName (cache_delete cacheName key w).1
  = delete key (partition cacheName w).
Proof.
  unfold partition. simpl. rewrite storage_lookup_update.
  destruct (storage_lookup cacheName (caches w)); simpl; [reflexivity|].
  now rewrite delete_empty.
Qed.

(** One callback of the map, on a key that is in the partition. *)
Lemma cleanupEntry_step (key : string) (response : Response) (w : World) :
  partition DYNAMIC_CACHE w !! key = Some response ->
  exists w',
    cleanupEntry Date_parse Date_now key w = (w', Fulfilled tt) /\
    partition DYNAMIC_CACHE w'
    = if tooOld Date_parse Date_now response
      then delete key (partition DYNAMIC_CACHE w)
      else partition DYNAMIC_CACHE w.
Proof.
  intros Hkey.
  pose proof (partition_after_delete DYNAMIC_CACHE key w) as Hdel.
  unfold cleanupEntry, tooOld, freshness, bind, cache_match. simpl.
  rewrite Hkey.
  destruct (headers_get "date" response) as [dateHeader|]; [|eauto].
  destruct (truthy dateHeader); [|eauto].
  destruct (Date_parse dateHeader) as [responseDate|]; [|eauto].
  destruct (maxAge <? Date_now - responseDate); [|eauto].
  destruct (cache_delete DYNAMIC_CACHE key w) as [w1 r] eqn:E.
  unfold cache_delete in E. injection E as <- <-. eauto.
Qed.

(** All the callbacks, over keys without repetition that are all in the
    partition: none throws, and exactly the entries that are too old
    are gone. *)
Lemma cleanup_all (keys : list string) :
  NoDup keys ->
  forall w : World,
    (forall k, k ∈ keys -> is_Some (partition DYNAMIC_CACHE w !! k)) ->
    isFulfilled (Promise_all (map (cleanupEntry Date_parse Date_now) keys) w).2 = true /\
    forall k,
      partition DYNAMIC_CACHE
        (Promise_all (map (cleanupEntry Date_parse Date_now) keys) w).1 !! k
      = match partition DYNAMIC_CACHE w !! k with
        | Some response =>
            if bool_decide (k ∈ keys) && tooOld Date_parse Date_now response
            then None else Some response
        | None => None
        end.
Proof.
  induction 1 as [|k0 rest Hnotin Hnodup IH]; intros w Hall; simpl.
  - split; [reflexivity|]. intros k.
    destruct (partition DYNAMIC_CACHE w !! k); reflexivity.
  - destruct (Hall k0) as [r0 Hr0]; [constructor|].
    destruct (cleanupEntry_step k0 r0 w Hr0) as (w1 & Hstep & Hpart).
    rewrite Hstep.
    assert (Hrest : forall k, k ∈ rest -> is_Some (partition DYNAMIC_CACHE w1 !! k)).
    { intros k Hk. rewrite Hpart.
      assert (k0 <> k) by (intros ->; contradiction).
      destruct (tooOld Date_parse Date_now r0);
        [rewrite lookup_delete_ne by assumption|]; apply Hall; now constructor. }
    destruct (IH w1 Hrest) as (Hful & Hlook).
    destruct (Promise_all (map (cleanupEntry Date_parse Date_now) rest) w1)
      as [w2 [l|e]]; [|discriminate]. simpl in *.
    split; [reflexivity|]. intros k. rewrite Hlook, Hpart.
    destruct (decide (k = k0)) as [->|Hne].
    + rewrite Hr0. rewrite (bool_decide_eq_true_2 (k0 ∈ k0 :: rest)) by constructor.
      rewrite (bool_decide_eq_false_2 (k0 ∈ rest)) by assumption. simpl.
      destruct (tooOld Date_parse Date_now r0); [|now rewrite Hr0].
      now rewrite lookup_delete_eq.
    + assert (Hmem : bool_decide (k ∈ k0 :: rest) = bool_decide (k ∈ rest)).
      { apply bool_decide_ext. rewrite elem_of_cons. tauto. }
      rewrite Hmem.
      destruct (tooOld Date_parse Date_now r0);
        [rewrite lookup_delete_ne by congruence|]; reflexivity.
Qed.

(** C8: the cleanup completes; of the entries of the dynamic partition
    it deletes those whose freshness timestamp is more than 7 days
    old, and keeps, unchanged, those whose timestamp is at most 7 days
    old and those without a usable timestamp. *)
Theorem performCacheCleanup_by_age (w : World) :
  exists w',
    performCacheCleanup Date_now Date_parse w = (w', Fulfilled tt) /\
    forall key response,
      partition DYNAMIC_CACHE w !! key = Some response ->
      (forall responseDate,
          freshness Date_parse response = Some responseDate ->
          Date_now - responseDate > 7 * 24 * 60 * 60 * 1000 ->
          partition DYNAMIC_CACHE w' !! key = None) /\
      (forall responseDate,
          freshness Date_parse response = Some responseDate ->
          Date_now - responseDate <= 7 * 24 * 60 * 60 * 1000 ->
          partition DYNAMIC_CACHE w' !! key = Some response) /\
      (freshness Date_parse response = None ->
       partition DYNAMIC_CACHE w' !! key = Some response).
Proof.
  unfold performCacheCleanup, bind.
  pose proof (caches_open_fulfils DYNAMIC_CACHE w) as Hopen.
  pose proof (partition_after_open DYNAMIC_CACHE DYNAMIC_CACHE w) as Hsame.
  destruct (caches_open DYNAMIC_CACHE w) as [w1 r]. simpl in Hopen, Hsame. subst r.
  unfold cache_keys at 1. cbv beta iota.
  destruct (cleanup_all ((map_to_list (partition DYNAMIC_CACHE w1)).*1)) with (w := w1)
    as (Hful & Hlook).
  { apply NoDup_fst_map_to_list. }
  { intros k Hk. apply list_elem_of_fmap in Hk as ([k' r'] & -> & Hk).
    apply elem_of_map_to_list in Hk. eauto. }
  destruct (Promise_all _ w1) as [w2 [l|e]]; [|discriminate]. simpl in Hlook.
  exists w2. split; [reflexivity|].
  intros key response Hkey.
  assert (Hin : key ∈ (map_to_list (partition DYNAMIC_CACHE w1)).*1).
  { apply list_elem_of_fmap. exists (key, response). split; [reflexivity|].
    apply elem_of_map_to_list. now rewrite Hsame. }
  specialize (Hlook key).
  rewrite (bool_decide_eq_true_2 _ Hin), Hsame, Hkey in Hlook. simpl in Hlook.
  unfold tooOld in Hlook.
  repeat split.
  - intros responseDate Hfresh Hold. rewrite Hfresh in Hlook.
    rewrite (proj2 (Z.ltb_lt _ _)) in Hlook by (unfold maxAge; lia). exact Hlook.
  - intros responseDate Hfresh Hyoung. rewrite Hfresh in Hlook.
    rewrite (proj2 (Z.ltb_ge _ _)) in Hlook by (unfold maxAge; lia). exact Hlook.
  - intros Hnone. now rewrite Hnone in Hlook.
Qed.
End Cleanup.

(** * Concrete runs *)

Import Sample.

Example classify_image : getCacheStrategy (url logo) = CACHE_STRATEGIES.CACHE_FIRST.
Proof. reflexivity. Qed.

Example classify_script : getCacheStrategy (url script) = CACHE_STRATEGIES.STALE_WHILE_REVALIDATE.
Proof. reflexivity. Qed.

Example classify_unmatched : getCacheStrategy (url api) = CACHE_STRATEGIES.NETWORK_FIRST.
Proof. reflexivity. Qed.

(** The extension must end the URL: a query string after it makes the
    URL unmatched. *)
Example classify_image_with_query :
  getCacheStrategy "https://pocketgnu.example/img/logo.png?v=2" = CACHE_STRATEGIES.NETWORK_FIRST.
Proof. reflexivity. Qed.

(** The extension patterns come first: an image served by the font host
    is cache-first. *)
Example classify_image_on_font_host :
  getCacheStrategy "https://fonts.googleapis.com/icon.svg" = CACHE_STRATEGIES.CACHE_FIRST.
Proof. reflexivity. Qed.

Example classify_font_css :
  getCacheStrategy "https://fonts.googleapis.com/css2?family=Inter"
  = CACHE_STRATEGIES.STALE_WHILE_REVALIDATE.
Proof. reflexivity. Qed.

Example classify_font_file :
  getCacheStrategy "https://fonts.gstatic.com/s/inter/v12/inter.woff2"
  = CACHE_STRATEGIES.CACHE_FIRST.
Proof. reflexivity. Qed.


(** A partial response is returned; the one [put] is refused and the
    caches hold nothing. *)
Example cacheFirst_partial_content :
  cacheFirst ranged logo started
  = (mkWorld [(DYNAMIC_CACHE, ∅)] (mkMetrics 0 1 1 0)
             [EvFetch logo; EvCachePut DYNAMIC_CACHE (url logo) partialContent],
     Fulfilled (VResponse partialContent)).
Proof. reflexivity. Qed.

(** A request that is not a [GET]: the response is returned, the one
    [put] is refused and the caches hold nothing. *)
Example cacheFirst_post :
  cacheFirst online (mkRequest "POST" "https://pocketgnu.example/api/items") started
  = (mkWorld [(DYNAMIC_CACHE, ∅)] (mkMetrics 0 1 1 0)
             [EvFetch (mkRequest "POST" "https://pocketgnu.example/api/items");
              EvCachePut DYNAMIC_CACHE "https://pocketgnu.example/api/items" found],
     Fulfilled (VResponse found)).
Proof. reflexivity. Qed.

(** A response outside the 2xx class is returned and not stored. *)
Example cacheFirst_not_found :
  cacheFirst withoutStyles (GET "/css/styles.css") started
  = (mkWorld [] (mkMetrics 0 1 1 0) [EvFetch (GET "/css/styles.css")],
     Fulfilled (VResponse notFound)).
Proof. reflexivity. Qed.

Lemma networkFirst_offline_witness :
  (exists w',
      networkFirst offline api visited = (w', Fulfilled (VResponse stale)) /\
      cacheHits (metrics w') = 1)
  /\ (exists w',
         networkFirst offline api started = (w', Rejected failedToFetch) /\
         cacheMisses (metrics w') = 1).
Proof.
  split.
  - destruct (networkFirst_offline offline api failedToFetch visited) as [Hhit _];
      [reflexivity|].
    destruct (Hhit stale) as (w' & Hrun & Hhits & _); [reflexivity|].
    exists w'. auto.
  - destruct (networkFirst_offline offline api failedToFetch started) as [_ Hmiss];
      [reflexivity|].
    destruct Hmiss as (w' & Hrun & Hmisses & _); [reflexivity|].
    exists w'. auto.
Defined.

Lemma staleWhileRevalidate_miss_offline_null_witness :
  exists w',
    staleWhileRevalidate offline script started = (w', Fulfilled VNull) /\
    errors (metrics w') = 0.
Proof.
  destruct (staleWhileRevalidate_miss_offline_null offline script failedToFetch started)
    as (w' & Hrun & _ & _ & _ & _ & Herr); try reflexivity.
  exists w'. auto.
Defined.

(** The same run seen from the page: the listener hands [null] to
    [respondWith]; there is no 408 response and no error is counted. *)
Example onfetch_script_offline :
  onfetch offline script started
  = (mkWorld [] (mkMetrics 0 1 1 0) [EvFetch script], RespondWith (Fulfilled VNull)).
Proof. reflexivity. Qed.

Lemma cacheOnly_miss_witness :
  exists w',
    cacheOnly api started = (w', Rejected (mkError "Error" "Resource not in cache")) /\
    trace w' = [].
Proof.
  destruct (cacheOnly_miss api started) as (w' & Hrun & _ & _ & _ & Htrace & _);
    [reflexivity|].
  exists w'. auto.
Defined.

Lemma onfetch_rejection_becomes_408_witness :
  exists w' response,
    onfetch offline api started = (w', RespondWith (Fulfilled (VResponse response))) /\
    status response = 408 /\
    errors (metrics w') = 1.
Proof.
  destruct (onfetch_rejection_becomes_408 offline api started
              (mkWorld [] (mkMetrics 0 1 1 0) [EvFetch api]) failedToFetch)
    as (w' & response & Hrun & Hstatus & Herr & _); try reflexivity.
  exists w', response. auto.
Defined.

Lemma oninstall_critical_failure_is_swallowed_witness :
  exists w',
    oninstall withoutCriticalCss requestFailed started = (w', Fulfilled tt) /\
    errors (metrics w') = 1 /\
    skipWaitingCalls (trace w') = [].
Proof.
  destruct (oninstall_critical_failure_is_swallowed
              withoutCriticalCss requestFailed "/css/critical.css" started)
    as (w' & Hrun & _ & Herr & Hskip & _).
  - repeat constructor.
  - reflexivity.
  - exists w'. auto.
Defined.

(** A preloaded resource answered with status 404 is not stored and does
    not fail the install. *)
Example oninstall_without_styles :
  (oninstall withoutStyles requestFailed started).2 = Fulfilled tt /\
  skipWaitingCalls (trace (oninstall withoutStyles requestFailed started).1) = [tt] /\
  errors (metrics (oninstall withoutStyles requestFailed started).1) = 0 /\
  partition DYNAMIC_CACHE (oninstall withoutStyles requestFailed started).1
    !! "https://pocketgnu.example/css/styles.css" = None.
Proof. vm_compute. auto. Qed.

(** A response with [Vary: *] cannot be added: the prefetch reports the
    failure of the add. *)
Example prefetch_unpredictable :
  replies (trace (onmessage varying requestFailed
                    (mkMessageData "PREFETCH_RESOURCES"
                       (Some (mkPayload (Some ["/a.png"])))) started).1)
  = [ PREFETCH_COMPLETE
        [ PrefetchResult.mk (Some "/a.png") false (Some "Request failed") ] ].
Proof. reflexivity. Qed.

(** No request is made of a URL whose scheme is not http or https: the
    add is refused before any fetch. *)
Example prefetch_other_scheme :
  let w' := (onmessage online requestFailed
               (mkMessageData "PREFETCH_RESOURCES"
                  (Some (mkPayload (Some ["data:text/plain,hi"; "/a.png"])))) started).1 in
  replies (trace w')
  = [ PREFETCH_COMPLETE
        [ PrefetchResult.mk (Some "data:text/plain,hi") false
                            (Some "Request scheme is unsupported");
          PrefetchResult.mk (Some "/a.png") true None ] ]
  /\ fetches (trace w') = [GET "https://pocketgnu.example/a.png"]
  /\ partition DYNAMIC_CACHE w' = {[ "https://pocketgnu.example/a.png" := found ]}.
Proof. repeat split. Qed.

(** With the network up the install calls [skipWaiting] once. *)
Example oninstall_online :
  (oninstall online requestFailed started).2 = Fulfilled tt /\
  skipWaitingCalls (trace (oninstall online requestFailed started).1) = [tt] /\
  errors (metrics (oninstall online requestFailed started).1) = 0.
Proof. vm_compute. auto. Qed.

(** On day 8 the entry of day 0 goes; the entries of day 1 and day 2, the
    entries whose date is unreadable or empty and the entry without a
    date stay. *)
Example cleanup_on_day_8 :
  let w' := (performCacheCleanup (8 * day) parseDay aged).1 in
  partition DYNAMIC_CACHE w' !! "/eight" = None /\
  partition DYNAMIC_CACHE w' !! "/seven" = Some (dated "day 1") /\
  partition DYNAMIC_CACHE w' !! "/six" = Some (dated "day 2") /\
  partition DYNAMIC_CACHE w' !! "/unreadable" = Some (dated "yesterday") /\
  partition DYNAMIC_CACHE w' !! "/empty" = Some (dated "") /\
  partition DYNAMIC_CACHE w' !! "/undated" = Some found.
Proof. vm_compute. repeat split. Qed.

(** The scenario of the specification. *)
Example prefetch_scenario :
  replies (trace (onmessage withoutBadUrl requestFailed
                    (mkMessageData "PREFETCH_RESOURCES"
                       (Some (mkPayload (Some ["/a.png"; "/bad-url"])))) started).1)
  = [ PREFETCH_COMPLETE
        [ PrefetchResult.mk (Some "/a.png") true None;
          PrefetchResult.mk (Some "/bad-url") false (Some "Failed to fetch") ] ].
Proof. reflexivity. Qed.

Lemma prefetch_without_urls_gets_no_reply_witness :
  onmessage online requestFailed (mkMessageData "PREFETCH_RESOURCES" None) started
  = (started, Fulfilled tt)
  /\ onmessage online requestFailed
       (mkMessageData "PREFETCH_RESOURCES" (Some (mkPayload None))) started
     = (started, Fulfilled tt).
Proof.
  split.
  - apply (prefetch_without_urls_gets_no_reply online requestFailed
             (mkMessageData "PREFETCH_RESOURCES" None) started).
    + reflexivity.
    + left. reflexivity.
  - apply (prefetch_without_urls_gets_no_reply online requestFailed
             (mkMessageData "PREFETCH_RESOURCES" (Some (mkPayload None))) started).
    + reflexivity.
    + right. exists (mkPayload None). split; reflexivity.
Defined.

(** * Further properties *)

(** ** Classification by the shape of the URL *)

Lemma String_endsWith_iff (suffix text : string) :
  String_endsWith suffix text = true <-> endsWith suffix text.
Proof.
  unfold endsWith. induction text as [|c text IH]; simpl.
  - rewrite orb_false_r, String.eqb_eq. split.
    + intros ->. now exists "".
    + intros [[|d stem] H]; [symmetry; exact H | discriminate H].
  - rewrite orb_true_iff, String.eqb_eq, IH. split.
    + intros [-> | [stem ->]]; [now exists "" | now exists (String c stem)].
    + intros [[|d stem] H].
      * left. symmetry. exact H.
      * change (String d stem +:+ suffix) with (String d (stem +:+ suffix)) in H.
        injection H as -> ->. right. now exists stem.
Qed.

Lemma existsb_orb {A} (f g : A -> bool) (l : list A) :
  existsb (fun x => f x || g x) l = existsb f l || existsb g l.
Proof.
  induction l as [|x l IH]; simpl; [reflexivity|].
  rewrite IH. destruct (f x), (g x), (existsb f l); reflexivity.
Qed.

Lemma bool_decide_elem_of_existsb (s : string) (l : list string) :
  bool_decide (s ∈ l) = existsb (fun e => String.eqb e s) l.
Proof.
  induction l as [|x l IH]; simpl.
  - reflexivity.
  - rewrite <- IH. destruct (String.eqb_spec x s) as [->|Hne]; simpl.
    + apply bool_decide_eq_true_2. constructor.
    + apply bool_decide_ext. rewrite elem_of_cons. split; [|tauto].
      intros [->|H]; [contradiction | exact H].
Qed.

(** A pattern that matches exactly the rest of the input, when that is
    one of [extensions], finds the inputs that end with one of them. *)
Lemma search_extensions (r : RegExp.regex) (extensions : list string) :
  (forall pos s, RegExp.matchk r pos s (fun _ _ => true) = bool_decide (s ∈ extensions)) ->
  forall pos s,
    RegExp.search r pos s = existsb (fun e => String_endsWith e s) extensions.
Proof.
  intros Hm pos s. revert pos. induction s as [|c s IH]; intros pos.
  - cbn [RegExp.search String_endsWith].
    rewrite Hm, existsb_orb, bool_decide_elem_of_existsb. f_equal.
    clear. induction extensions as [|e l IH]; simpl; auto.
  - cbn [RegExp.search String_endsWith].
    now rewrite Hm, IH, existsb_orb, bool_decide_elem_of_existsb.
Qed.

(** The classification in terms of [endsWith] and [startsWith]: the
    extension of the URL decides first, then the host of the fonts. *)
Theorem getCacheStrategy_by_shape (u : string) :
  getCacheStrategy u =
    if existsb (fun e => String_endsWith e u) [".js"; ".css"]
    then CACHE_STRATEGIES.STALE_WHILE_REVALIDATE
    else if existsb (fun e => String_endsWith e u)
                    [".png"; ".jpg"; ".jpeg"; ".svg"; ".gif"; ".webp"]
    then CACHE_STRATEGIES.CACHE_FIRST
    else if String.prefix "https://fonts.googleapis.com" u
    then CACHE_STRATEGIES.STALE_WHILE_REVALIDATE
    else if String.prefix "https://fonts.gstatic.com" u
    then CACHE_STRATEGIES.CACHE_FIRST
    else CACHE_STRATEGIES.NETWORK_FIRST.
Proof.
  unfold getCacheStrategy.
  cbn [CACHE_PATTERNS firstMatching pattern strategy].
  rewrite test_google_fonts_css, test_google_fonts_files.
  unfold RegExp.test.
  rewrite (search_extensions _ _ script_or_style_matchk).
  rewrite (search_extensions _ _ image_matchk).
  reflexivity.
Qed.

(** A URL that ends with an image extension is cache-first on every
    host, the hosts of the fonts included. *)
Theorem image_urls_are_cache_first (extension u : string) :
  extension ∈ [".png"; ".jpg"; ".jpeg"; ".svg"; ".gif"; ".webp"] ->
  endsWith extension u ->
  getCacheStrategy u = CACHE_STRATEGIES.CACHE_FIRST.
Proof.
  intros Hext Hends. apply image_is_cache_first, test_image. eauto.
Qed.

Lemma image_urls_are_cache_first_witness :
  getCacheStrategy "https://fonts.googleapis.com/icons/logo.webp"
  = CACHE_STRATEGIES.CACHE_FIRST.
Proof.
  apply (image_urls_are_cache_first ".webp").
  - repeat constructor.
  - now exists "https://fonts.googleapis.com/icons/logo".
Defined.

(** The listener runs one of three handlers: no URL is classified as
    cache-only or network-only. *)
Theorem dispatcher_runs_three_handlers (network : Request -> Settled Response)
        (request : Request) :
  handleRequest network request (getCacheStrategy (url request))
    = staleWhileRevalidate network request
  \/ handleRequest network request (getCacheStrategy (url request))
    = cacheFirst network request
  \/ handleRequest network request (getCacheStrategy (url request))
    = networkFirst network request.
Proof.
  unfold getCacheStrategy.
  cbn [CACHE_PATTERNS firstMatching pattern strategy].
  destruct (RegExp.test script_or_style (url request)); [now left|].
  destruct (RegExp.test image (url request)); [now right; left|].
  destruct (RegExp.test google_fonts_css (url request)); [now left|].
  destruct (RegExp.test google_fonts_files (url request)); [now right; left|].
  now right; right.
Qed.

(** A strategy that is none of the five names is handled as
    network-first. *)
Theorem handleRequest_unknown_strategy (network : Request -> Settled Response)
        (request : Request) (name : string) :
  name ∉ [ CACHE_STRATEGIES.CACHE_FIRST; CACHE_STRATEGIES.NETWORK_FIRST;
           CACHE_STRATEGIES.STALE_WHILE_REVALIDATE; CACHE_STRATEGIES.CACHE_ONLY;
           CACHE_STRATEGIES.NETWORK_ONLY ] ->
  handleRequest network request name = networkFirst network request.
Proof.
  intros Hnot. unfold handleRequest.
  repeat match goal with
    | |- context [String.eqb name ?s] =>
        destruct (String.eqb_spec name s) as [->|_];
        [exfalso; apply Hnot; repeat constructor|]
    end.
  reflexivity.
Qed.

Lemma handleRequest_unknown_strategy_witness :
  handleRequest offline api "cache-then-network" = networkFirst offline api.
Proof.
  apply handleRequest_unknown_strategy.
  intros Hin. one_of Hin idtac.
Defined.

(** ** Which requests the listener answers *)

(** The test on the protocol is a test on the first four characters of
    the URL. *)
Lemma URL_protocol_http (u : string) :
  String.prefix "http" (URL_protocol u) = String.prefix "http" u.
Proof.
  destruct u as [|a [|b [|c [|d u]]]]; cbn -[ascii_dec Ascii.eqb];
    repeat match goal with
      | |- context [Ascii.eqb ?x ":"] =>
          destruct (Ascii.eqb_spec x ":"); subst; cbn -[ascii_dec Ascii.eqb]
      | |- context [ascii_dec ?x ?y] =>
          destruct (ascii_dec x y); subst; cbn -[ascii_dec Ascii.eqb]
      end;
    try reflexivity; try congruence.
  now destruct (URL_protocol u), u.
Qed.

(** A request that is not a GET, or whose URL does not start with
    [http], is left to the browser: [respondWith] is not called, and
    nothing is counted, fetched or stored. *)
Theorem onfetch_passes_through (network : Request -> Settled Response)
        (request : Request) (w : World) :
  method request <> "GET" \/ String.prefix "http" (url request) = false ->
  onfetch network request w = (w, PassThrough).
Proof.
  intros H. unfold onfetch. rewrite URL_protocol_http.
  destruct (String.eqb_spec (method request) "GET") as [Hget|Hother]; simpl.
  - destruct H as [H|H]; [contradiction | now rewrite H].
  - reflexivity.
Qed.

Lemma onfetch_passes_through_witness :
  onfetch online (mkRequest "POST" "https://pocketgnu.example/api/status") started
  = (started, PassThrough)
  /\ onfetch online (GET "chrome-extension://abcdef/popup.js") started
     = (started, PassThrough).
Proof.
  split; apply onfetch_passes_through.
  - left. discriminate.
  - right. reflexivity.
Defined.

(** Every GET request whose URL starts with [http] is answered, with a
    promise that is fulfilled: with the value of the handler when the
    handler fulfils, the world being the one the handler leaves. *)
Theorem onfetch_answers (network : Request -> Settled Response)
        (request : Request) (w : World) :
  method request = "GET" ->
  String.prefix "http" (url request) = true ->
  exists w' value,
    onfetch network request w = (w', RespondWith (Fulfilled value)) /\
    forall w1 v,
      handleRequest network request (getCacheStrategy (url request)) w = (w1, Fulfilled v) ->
      w' = w1 /\ value = v.
Proof.
  intros Hget Hhttp. unfold onfetch.
  rewrite URL_protocol_http, Hget, Hhttp. simpl. unfold catch.
  destruct (handleRequest network request _ w) as [w1 [v|e]].
  - exists w1, v. split; [reflexivity|]. intros ? ? [= <- <-]. auto.
  - exec. eexists _, _. split; [reflexivity|]. discriminate.
Qed.

Lemma onfetch_answers_witness :
  exists w' value,
    onfetch online logo started = (w', RespondWith (Fulfilled value)) /\
    value = VResponse found.
Proof.
  destruct (onfetch_answers online logo started) as (w' & value & Hrun & Hval);
    try reflexivity.
  exists w', value. split; [exact Hrun|].
  eapply Hval. reflexivity.
Defined.

(** ** What the strategies leave in the caches *)

Lemma storage_update_opened_cons (n : string) (c : gmap string Response) f
      (cs : list (string * gmap string Response)) :
  n <> DYNAMIC_CACHE ->
  storage_update DYNAMIC_CACHE f (opened DYNAMIC_CACHE ((n, c) :: cs))
  = (n, c) :: storage_update DYNAMIC_CACHE f (opened DYNAMIC_CACHE cs).
Proof.
  intros Hne. unfold opened. simpl.
  destruct (String.eqb_spec n DYNAMIC_CACHE) as [|_]; [contradiction|].
  destruct (storage_lookup DYNAMIC_CACHE cs); simpl;
    destruct (String.eqb_spec n DYNAMIC_CACHE); try contradiction; reflexivity.
Qed.

(** What [caches.match] finds once a response has been put in the
    dynamic partition, when no other partition holds the URL. *)
Lemma storage_match_stored (key : string) (response : Response)
      (cs : list (string * gmap string Response)) :
  onlyDynamicHolds key cs ->
  storage_match key
    (storage_update DYNAMIC_CACHE (insert key response) (opened DYNAMIC_CACHE cs))
  = Some response.
Proof.
  induction cs as [|[n c] rest IH]; intros Honly.
  - unfold opened. simpl. now rewrite lookup_insert_eq.
  - destruct (String.eqb_spec n DYNAMIC_CACHE) as [->|Hne].
    + unfold opened. simpl. now rewrite lookup_insert_eq.
    + rewrite storage_update_opened_cons by assumption. simpl.
      rewrite (Honly n c) by (auto; constructor).
      apply IH. intros n' c' Hin. apply Honly. now constructor.
Qed.

Lemma storage_match_none_onlyDynamicHolds (key : string)
      (cs : list (string * gmap string Response)) :
  storage_match key cs = None -> onlyDynamicHolds key cs.
Proof.
  induction cs as [|[n c] rest IH]; intros Hnone n' c' Hin Hne.
  - inversion Hin.
  - simpl in Hnone. destruct (c !! key) eqn:E; [discriminate|].
    apply elem_of_cons in Hin as [[= -> ->] | Hin]; [exact E|].
    now apply (IH Hnone n' c').
Qed.

(** An entry of a partition opened before the dynamic one hides what
    is put in the dynamic partition. *)
Lemma storage_match_shadowed (key n : string) (c : gmap string Response) (old : Response) f
      (rest : list (string * gmap string Response)) :
  n <> DYNAMIC_CACHE ->
  c !! key = Some old ->
  storage_match key
    (storage_update DYNAMIC_CACHE f (opened DYNAMIC_CACHE ((n, c) :: rest)))
  = Some old.
Proof.
  intros Hne Hold. rewrite storage_update_opened_cons by assumption.
  simpl. now rewrite Hold.
Qed.

Lemma partition_stored (key : string) (response : Response)
      (cs : list (string * gmap string Response)) :
  default ∅ (storage_lookup DYNAMIC_CACHE
    (storage_update DYNAMIC_CACHE (insert key response) (opened DYNAMIC_CACHE cs)))
  !! key = Some response.
Proof. apply partition_after_put. Qed.

(** Runs a handler on a world: the monad is unfolded and the cases of
    the storage are taken apart. *)
Ltac run_handler :=
  exec;
  repeat match goal with
    | H : ?x = _ |- context [?x] => rewrite H; simpl
    | |- context [storage_lookup DYNAMIC_CACHE (caches ?w)] =>
        destruct (storage_lookup DYNAMIC_CACHE (caches w)); simpl
    end.

Section Composition.
Variable network : Request -> Settled Response.

(** Cache-first with a cached entry: the entry is returned and a hit
    recorded; the network is not used and nothing is stored. *)
Theorem cacheFirst_hit (request : Request) (cachedResponse : Response) (w : World) :
  storage_match (url request) (caches w) = Some cachedResponse ->
  exists w',
    cacheFirst network request w = (w', Fulfilled (VResponse cachedResponse)) /\
    cacheHits (metrics w') = cacheHits (metrics w) + 1 /\
    cacheMisses (metrics w') = cacheMisses (metrics w) /\
    networkRequests (metrics w') = networkRequests (metrics w) /\
    trace w' = trace w /\
    caches w' = caches w.
Proof.
  intros Hhit. unfold cacheFirst. run_handler.
  eexists. split; [reflexivity|]. simpl. repeat split; auto.
Qed.

(** Cache-first without a cached entry stores nothing when the fetch
    fails or its response is outside the 2xx class; the handler then
    settles as the fetch did. *)
Theorem cacheFirst_stores_only_ok (request : Request) (w : World) :
  storage_match (url request) (caches w) = None ->
  (forall response, network request = Fulfilled response -> ok response = false) ->
  exists w',
    cacheFirst network request w
    = (w', match network request with
           | Fulfilled response => Fulfilled (VResponse response)
           | Rejected reason => Rejected reason
           end) /\
    caches w' = caches w /\
    cachePuts (trace w') = cachePuts (trace w) /\
    cacheMisses (metrics w') = cacheMisses (metrics w) + 1 /\
    networkRequests (metrics w') = networkRequests (metrics w) + 1.
Proof.
  intros Hmiss Hbad. unfold cacheFirst. exec. rewrite Hmiss. simpl.
  destruct (network request) as [response|reason] eqn:Hnet; simpl.
  - rewrite (Hbad response eq_refl). simpl.
    eexists. split; [reflexivity|]. trace_simpl. repeat split; auto.
  - eexists. split; [reflexivity|]. trace_simpl. repeat split; auto.
Qed.

(** The world that cache-first leaves when it fetches and stores. *)
Lemma cacheFirst_miss_ok_state (request : Request) (response : Response) (w : World) :
  storage_match (url request) (caches w) = None ->
  network request = Fulfilled response ->
  ok response = true ->
  putAccepts request response = true ->
  cacheFirst network request w
  = (mkWorld
       (storage_update DYNAMIC_CACHE (insert (url request) response)
          (opened DYNAMIC_CACHE (caches w)))
       (mkMetrics (cacheHits (metrics w)) (cacheMisses (metrics w) + 1)
                  (networkRequests (metrics w) + 1) (errors (metrics w)))
       (trace w ++ [EvFetch request; EvCachePut DYNAMIC_CACHE (url request) response]),
     Fulfilled (VResponse response)).
Proof.
  intros Hmiss Hnet Hok Hkept. unfold cacheFirst, opened. run_handler;
    unfold emit, set_caches, set_metrics; simpl; now rewrite <- app_assoc.
Qed.

(** A response stored by cache-first is what the next cache-first call
    for the same request returns, without a fetch, whatever the network
    has become.  The [put] is one that the cache accepts, and the
    second call comes when that [put], which the handler does not
    await, has completed. *)
Theorem cacheFirst_twice (network' : Request -> Settled Response)
        (request : Request) (response : Response) (w : World) :
  storage_match (url request) (caches w) = None ->
  network request = Fulfilled response ->
  ok response = true ->
  putAccepts request response = true ->
  exists w1 w2,
    cacheFirst network request w = (w1, Fulfilled (VResponse response)) /\
    cacheFirst network' request w1 = (w2, Fulfilled (VResponse response)) /\
    fetches (trace w2) = fetches (trace w) ++ [request] /\
    cacheHits (metrics w2) = cacheHits (metrics w) + 1 /\
    cacheMisses (metrics w2) = cacheMisses (metrics w) + 1 /\
    caches w2 = caches w1.
Proof.
  intros Hmiss Hnet Hok Hkept.
  rewrite (cacheFirst_miss_ok_state request response w Hmiss Hnet Hok Hkept).
  eexists. eexists. split; [reflexivity|].
  unfold cacheFirst. exec.
  rewrite storage_match_stored by now apply storage_match_none_onlyDynamicHolds.
  simpl. split; [reflexivity|]. trace_simpl. repeat split; auto.
Qed.

(** Network-first with the network up does not look at the caches: the
    response of the fetch is returned and one network request is
    recorded, without a hit or a miss.  For a response of the 2xx class
    one [put] is issued on the dynamic partition: when the cache
    accepts it the response replaces any entry that was there, and when
    it refuses it (a request that is not a [GET] over http or https, a
    response of status 206 or with [Vary: *]) no partition changes.
    For any other response there is no [put] and the caches are as
    they were. *)
Theorem networkFirst_online (request : Request) (response : Response) (w : World) :
  network request = Fulfilled response ->
  exists w',
    networkFirst network request w = (w', Fulfilled (VResponse response)) /\
    networkRequests (metrics w') = networkRequests (metrics w) + 1 /\
    cacheHits (metrics w') = cacheHits (metrics w) /\
    cacheMisses (metrics w') = cacheMisses (metrics w) /\
    fetches (trace w') = fetches (trace w) ++ [request] /\
    (ok response = true ->
     cachePuts (trace w') =
       cachePuts (trace w) ++ [(DYNAMIC_CACHE, url request, response)] /\
     (putAccepts request response = true ->
      partition DYNAMIC_CACHE w' !! url request = Some response) /\
     (putAccepts request response = false ->
      forall cacheName, partition cacheName w' = partition cacheName w)) /\
    (ok response = false ->
     caches w' = caches w /\ cachePuts (trace w') = cachePuts (trace w)).
Proof.
  intros Hnet.
  pose proof (partition_after_put (url request) response (caches w)) as Hpart.
  assert (Hopen : forall cacheName,
             partition cacheName (caches_open DYNAMIC_CACHE w).1 = partition cacheName w)
    by (intros cacheName; apply partition_after_open).
  unfold caches_open, partition in Hopen.
  unfold networkFirst. exec. rewrite Hnet. simpl.
  destruct (ok response); simpl;
    [destruct (putAccepts request response);
     destruct (storage_lookup DYNAMIC_CACHE (caches w)); simpl|];
    (eexists; split; [reflexivity|]); trace_simpl; unfold partition; simpl;
    repeat split; auto; discriminate.
Qed.

Lemma networkFirst_ok_state (request : Request) (response : Response) (w : World) :
  network request = Fulfilled response ->
  ok response = true ->
  putAccepts request response = true ->
  networkFirst network request w
  = (mkWorld
       (storage_update DYNAMIC_CACHE (insert (url request) response)
          (opened DYNAMIC_CACHE (caches w)))
       (mkMetrics (cacheHits (metrics w)) (cacheMisses (metrics w))
                  (networkRequests (metrics w) + 1) (errors (metrics w)))
       (trace w ++ [EvFetch request; EvCachePut DYNAMIC_CACHE (url request) response]),
     Fulfilled (VResponse response)).
Proof.
  intros Hnet Hok Hkept. unfold networkFirst, opened. run_handler;
    unfold emit, set_caches, set_metrics; simpl; now rewrite <- app_assoc.
Qed.

(** What network-first stored while the network was up is what it falls
    back to when the network is down, provided the [put] is one that
    the cache accepts and has completed, and no partition other than
    the dynamic one holds the URL. *)
Theorem networkFirst_falls_back_to_last_response
        (network' : Request -> Settled Response)
        (request : Request) (response : Response) (reason : Error) (w : World) :
  onlyDynamicHolds (url request) (caches w) ->
  network request = Fulfilled response ->
  ok response = true ->
  putAccepts request response = true ->
  network' request = Rejected reason ->
  exists w1 w2,
    networkFirst network request w = (w1, Fulfilled (VResponse response)) /\
    networkFirst network' request w1 = (w2, Fulfilled (VResponse response)) /\
    cacheHits (metrics w2) = cacheHits (metrics w) + 1 /\
    networkRequests (metrics w2) = networkRequests (metrics w) + 2 /\
    errors (metrics w2) = errors (metrics w).
Proof.
  intros Honly Hnet Hok Hkept Hdown.
  rewrite (networkFirst_ok_state request response w Hnet Hok Hkept).
  eexists. eexists. split; [reflexivity|].
  unfold networkFirst. exec. rewrite Hdown. simpl.
  rewrite storage_match_stored by assumption. simpl.
  split; [reflexivity|]. simpl. repeat split; auto. lia.
Qed.

(** The world that stale-while-revalidate leaves when it serves a
    cached entry and the revalidation succeeds. *)
Lemma staleWhileRevalidate_hit_ok_state (request : Request)
      (cachedResponse fresh : Response) (w : World) :
  storage_match (url request) (caches w) = Some cachedResponse ->
  network request = Fulfilled fresh ->
  ok fresh = true ->
  putAccepts request fresh = true ->
  staleWhileRevalidate network request w
  = (mkWorld
       (storage_update DYNAMIC_CACHE (insert (url request) fresh)
          (opened DYNAMIC_CACHE (caches w)))
       (mkMetrics (cacheHits (metrics w) + 1) (cacheMisses (metrics w))
                  (networkRequests (metrics w)) (errors (metrics w)))
       (trace w ++ [EvFetch request; EvCachePut DYNAMIC_CACHE (url request) fresh]),
     Fulfilled (VResponse cachedResponse)).
Proof.
  intros Hhit Hnet Hok Hkept. unfold staleWhileRevalidate, opened. run_handler;
    unfold emit, set_caches, set_metrics; simpl; now rewrite <- app_assoc.
Qed.

(** Stale-while-revalidate with a cached entry and the network up: the
    cached entry is returned, and the fetched response, when the cache
    accepts the [put], is in the dynamic partition once the detached
    revalidation has completed.  A hit is recorded; the fetch of the
    revalidation is not counted as a network request. *)
Theorem staleWhileRevalidate_hit_online (request : Request)
        (cachedResponse fresh : Response) (w : World) :
  storage_match (url request) (caches w) = Some cachedResponse ->
  network request = Fulfilled fresh ->
  ok fresh = true ->
  putAccepts request fresh = true ->
  exists w',
    staleWhileRevalidate network request w = (w', Fulfilled (VResponse cachedResponse)) /\
    partition DYNAMIC_CACHE w' !! url request = Some fresh /\
    fetches (trace w') = fetches (trace w) ++ [request] /\
    cachePuts (trace w') = cachePuts (trace w) ++ [(DYNAMIC_CACHE, url request, fresh)] /\
    cacheHits (metrics w') = cacheHits (metrics w) + 1 /\
    networkRequests (metrics w') = networkRequests (metrics w) /\
    cacheMisses (metrics w') = cacheMisses (metrics w).
Proof.
  intros Hhit Hnet Hok Hkept.
  rewrite (staleWhileRevalidate_hit_ok_state
             request cachedResponse fresh w Hhit Hnet Hok Hkept).
  eexists. split; [reflexivity|]. unfold partition. simpl.
  rewrite partition_stored. trace_simpl. repeat split; auto.
Qed.

(** When only the dynamic partition holds the URL, the response fetched
    by one revalidation, when the cache accepts the [put], is what the
    next call returns: [w1] is the world in which the detached
    revalidation of the first call has completed, with the fetched
    response in the dynamic partition. *)
Theorem staleWhileRevalidate_serves_refreshed_next
        (network' : Request -> Settled Response)
        (request : Request) (cachedResponse fresh : Response) (w : World) :
  onlyDynamicHolds (url request) (caches w) ->
  storage_match (url request) (caches w) = Some cachedResponse ->
  network request = Fulfilled fresh ->
  ok fresh = true ->
  putAccepts request fresh = true ->
  exists w1,
    staleWhileRevalidate network request w = (w1, Fulfilled (VResponse cachedResponse)) /\
    partition DYNAMIC_CACHE w1 !! url request = Some fresh /\
    (staleWhileRevalidate network' request w1).2 = Fulfilled (VResponse fresh).
Proof.
  intros Honly Hhit Hnet Hok Hkept.
  rewrite (staleWhileRevalidate_hit_ok_state
             request cachedResponse fresh w Hhit Hnet Hok Hkept).
  eexists. split; [reflexivity|]. split.
  { unfold partition. simpl. apply partition_stored. }
  unfold staleWhileRevalidate. exec.
  rewrite storage_match_stored by assumption. simpl.
  destruct (network' request) as [r|e]; simpl;
    [destruct (ok r); simpl; [destruct (putAccepts request r); simpl|]|];
    repeat match goal with
      | |- context [match ?x with Some _ => _ | None => _ end] => destruct x; simpl
      end; reflexivity.
Qed.

(** An entry held by a partition opened before the dynamic one is never
    replaced: the revalidation puts the fetched response, when the
    cache accepts the [put], in the dynamic partition, and
    [caches.match] goes on finding the old entry. *)
Theorem staleWhileRevalidate_never_refreshes_earlier_partition
        (request : Request) (old fresh : Response)
        (n : string) (c : gmap string Response)
        (rest : list (string * gmap string Response)) (w : World) :
  caches w = (n, c) :: rest ->
  n <> DYNAMIC_CACHE ->
  c !! url request = Some old ->
  network request = Fulfilled fresh ->
  ok fresh = true ->
  putAccepts request fresh = true ->
  exists w',
    staleWhileRevalidate network request w = (w', Fulfilled (VResponse old)) /\
    partition DYNAMIC_CACHE w' !! url request = Some fresh /\
    storage_match (url request) (caches w') = Some old.
Proof.
  intros Hcaches Hne Hold Hnet Hok Hkept.
  assert (Hhit : storage_match (url request) (caches w) = Some old).
  { rewrite Hcaches. simpl. now rewrite Hold. }
  rewrite (staleWhileRevalidate_hit_ok_state request old fresh w Hhit Hnet Hok Hkept).
  eexists. split; [reflexivity|]. unfold partition. simpl.
  rewrite partition_stored. split; [reflexivity|].
  rewrite Hcaches. now apply storage_match_shadowed.
Qed.

(** Network-only neither reads nor writes a cache: it settles as the
    fetch does and records one network request. *)
Theorem networkOnly_uses_no_cache (request : Request) (w : World) :
  exists w',
    networkOnly network request w
    = (w', match network request with
           | Fulfilled response => Fulfilled (VResponse response)
           | Rejected reason => Rejected reason
           end) /\
    caches w' = caches w /\
    trace w' = trace w ++ [EvFetch request] /\
    networkRequests (metrics w') = networkRequests (metrics w) + 1 /\
    cacheHits (metrics w') = cacheHits (metrics w) /\
    cacheMisses (metrics w') = cacheMisses (metrics w).
Proof.
  unfold networkOnly. exec.
  destruct (network request); simpl;
    (eexists; split; [reflexivity|]); simpl; repeat split; auto.
Qed.

(** No strategy touches the error counter, posts a message or calls
    [skipWaiting]; a handler issues one fetch at most and records one
    hit or miss at most. *)
Theorem handleRequest_counters (request : Request) (name : string) (w : World) :
  let w' := (handleRequest network request name w).1 in
  errors (metrics w') = errors (metrics w) /\
  replies (trace w') = replies (trace w) /\
  skipWaitingCalls (trace w') = skipWaitingCalls (trace w) /\
  (fetches (trace w') = fetches (trace w)
   \/ fetches (trace w') = fetches (trace w) ++ [request]) /\
  cacheHits (metrics w) + cacheMisses (metrics w)
    <= cacheHits (metrics w') + cacheMisses (metrics w')
    <= cacheHits (metrics w) + cacheMisses (metrics w) + 1.
Proof.
  unfold handleRequest.
  repeat match goal with
    | |- context [String.eqb name ?s] => destruct (String.eqb name s)
    end;
    unfold cacheFirst, networkFirst, staleWhileRevalidate, cacheOnly, networkOnly;
    exec;
    repeat match goal with
      | |- context [network request] => destruct (network request); simpl
      | |- context [storage_match ?k ?cs] => destruct (storage_match k cs); simpl
      | |- context [ok ?r] => destruct (ok r); simpl
      | |- context [putAccepts ?q ?r] => destruct (putAccepts q r); simpl
      | |- context [storage_lookup DYNAMIC_CACHE ?cs] =>
          destruct (storage_lookup DYNAMIC_CACHE cs); simpl
      end;
    trace_simpl; repeat split; auto; lia.
Qed.

End Composition.

(** ** What install and prefetch leave in the caches *)

Section Stores.
Context {here : Location}.
Variable network : Request -> Settled Response.
Variable bad_status : Response -> Error.

(** [cache.add] on a partition that exists: the response is stored,
    under the absolute URL of the key, when the add fulfils, and the
    partition is as it was when it rejects. *)
Lemma cache_add_partition (cacheName key : string) (c : gmap string Response) (w : World) :
  storage_lookup cacheName (caches w) = Some c ->
  storage_lookup cacheName (caches (cache_add network bad_status cacheName key w).1)
  = Some (added network bad_status key c).
Proof.
  intros Hc. unfold cache_add, requestOf, fetch_ok, added, fetchSettles. exec.
  destruct (resolve key) as [absolute|refused]; simpl; [|exact Hc].
  destruct (network (GET absolute)) as [r|e]; simpl; [|exact Hc].
  destruct (ok r && storable r); simpl; [|exact Hc].
  now rewrite storage_lookup_update, Hc.
Qed.

(** The adds of a prefetch, and those of the preload with their
    failures caught, on a partition that exists. *)
Lemma settleAll_adds_partition {A} (f : string -> Async A) (cacheName : string) :
  (forall key c w,
      storage_lookup cacheName (caches w) = Some c ->
      storage_lookup cacheName (caches (f key w).1)
      = Some (added network bad_status key c)) ->
  forall (keys : list string) (c : gmap string Response) (w : World),
    storage_lookup cacheName (caches w) = Some c ->
    exists c',
      storage_lookup cacheName (caches (settleAll (map f keys) w).1) = Some c' /\
      forall k,
        c' !! k = match fetchSettles network bad_status k with
                  | Fulfilled response =>
                      if bool_decide (k ∈ requestURLs keys) then Some response
                      else c !! k
                  | Rejected _ => c !! k
                  end.
Proof.
  intros Hf keys. induction keys as [|u rest IH]; intros c w Hc; simpl.
  - exists c. split; [exact Hc|]. intros k.
    now destruct (fetchSettles network bad_status k).
  - specialize (Hf u c w Hc). destruct (f u w) as [w1 r1]. simpl in Hf.
    destruct (IH _ w1 Hf) as (c' & Hc' & Hlook).
    destruct (settleAll (map f rest) w1) as [w2 l]. simpl in *.
    exists c'. split; [exact Hc'|]. intros k. rewrite Hlook.
    unfold added, requestURLs. simpl.
    destruct (resolve u) as [absolute|refused]; [|reflexivity].
    fold (requestURLs rest).
    destruct (decide (k = absolute)) as [->|Hne].
    + rewrite (bool_decide_eq_true_2 (absolute ∈ absolute :: requestURLs rest))
        by constructor.
      destruct (fetchSettles network bad_status absolute) as [r|e]; [|reflexivity].
      rewrite lookup_insert_eq. now destruct (bool_decide (absolute ∈ requestURLs rest)).
    + assert (Hmem : bool_decide (k ∈ absolute :: requestURLs rest)
                     = bool_decide (k ∈ requestURLs rest)).
      { apply bool_decide_ext. rewrite elem_of_cons. tauto. }
      rewrite Hmem.
      destruct (fetchSettles network bad_status absolute) as [r|e];
        [rewrite lookup_insert_ne by congruence|]; reflexivity.
Qed.

Lemma storage_lookup_opened (cacheName : string) (w : World) :
  storage_lookup cacheName (caches (caches_open cacheName w).1)
  = Some (partition cacheName w).
Proof.
  unfold caches_open, partition.
  destruct (storage_lookup cacheName (caches w)) eqn:E; simpl.
  - now rewrite E.
  - now rewrite storage_lookup_snoc.
Qed.

(** After a prefetch the dynamic partition holds, under the absolute
    URL of each string of the list that could be added, the response
    that was fetched; every other entry is as it was.  [k] is an
    absolute URL, a key of the partition; a string of which no request
    can be made adds nothing. *)
Theorem prefetchResources_stores_what_it_fetched (urls : list string) (w : World) (k : string) :
  partition DYNAMIC_CACHE (prefetchResources network bad_status urls w).1 !! k
  = match fetchSettles network bad_status k with
    | Fulfilled response =>
        if bool_decide (k ∈ requestURLs urls) then Some response
        else partition DYNAMIC_CACHE w !! k
    | Rejected _ => partition DYNAMIC_CACHE w !! k
    end.
Proof.
  unfold prefetchResources, bind, Promise_allSettled.
  pose proof (storage_lookup_opened DYNAMIC_CACHE w) as Hopen.
  pose proof (caches_open_fulfils DYNAMIC_CACHE w) as Hful.
  destruct (caches_open DYNAMIC_CACHE w) as [w1 r]. simpl in Hopen, Hful. subst r.
  destruct (settleAll_adds_partition
              (fun url => cache_add network bad_status DYNAMIC_CACHE url) DYNAMIC_CACHE
              (cache_add_partition DYNAMIC_CACHE) urls _ w1 Hopen) as (c' & Hc' & Hlook).
  destruct (settleAll _ w1) as [w2 l]. simpl in *.
  unfold partition at 1. rewrite Hc'. simpl. apply Hlook.
Qed.

Lemma samePartition_refl (cacheName : string) (w : World) : samePartition cacheName w w.
Proof. reflexivity. Qed.

Lemma samePartition_trans (cacheName : string) (w1 w2 w3 : World) :
  samePartition cacheName w1 w2 -> samePartition cacheName w2 w3 ->
  samePartition cacheName w1 w3.
Proof. unfold samePartition. congruence. Qed.

Lemma fetch_ok_samePartition (cacheName absolute : string) :
  preserves (samePartition cacheName) (fetch_ok network bad_status absolute).
Proof.
  intros w. unfold fetch_ok. exec.
  destruct (network (GET absolute)) as [r|e]; simpl;
    [destruct (ok r && storable r)|]; reflexivity.
Qed.

Lemma cache_store_samePartition (cacheName other key : string) (response : Response) :
  other <> cacheName ->
  preserves (samePartition other) (cache_store cacheName key response).
Proof.
  intros Hne w. unfold samePartition, partition. simpl.
  now rewrite storage_lookup_update_ne.
Qed.

Lemma putAll_samePartition (cacheName other : string) (entries : list (string * Response)) :
  other <> cacheName ->
  preserves (samePartition other) (putAll cacheName entries).
Proof.
  intros Hne. induction entries as [|[key response] rest IH]; simpl.
  - apply preserves_ret, samePartition_refl.
  - apply (preserves_bind _ (samePartition_trans other)); [|auto].
    now apply cache_store_samePartition.
Qed.

(** The critical resources go to the static partition: the dynamic one
    is not touched by them. *)
Lemma cacheCritical_samePartition :
  preserves (samePartition DYNAMIC_CACHE) (cacheCritical network bad_status).
Proof.
  apply (preserves_bind _ (samePartition_trans DYNAMIC_CACHE)).
  { intros w. apply partition_after_open. }
  intros _. apply (preserves_bind _ (samePartition_trans DYNAMIC_CACHE)).
  { intros w.
    exact (f_equal (partition DYNAMIC_CACHE)
                   (proj1 (Promise_all_requestOf CRITICAL_RESOURCES w))). }
  intros absolutes. apply (preserves_bind _ (samePartition_trans DYNAMIC_CACHE)).
  - apply (preserves_Promise_all _ (samePartition_refl DYNAMIC_CACHE)
             (samePartition_trans DYNAMIC_CACHE)).
    apply Forall_forall. intros p Hp.
    apply list_elem_of_fmap in Hp as (absolute & -> & _). apply fetch_ok_samePartition.
  - intros responses. now apply putAll_samePartition.
Qed.

Lemma catch_ret_world {A} (c : Async A) (a : A) (w : World) :
  (catch c (fun _ => ret a) w).1 = (c w).1.
Proof. unfold catch, ret. now destruct (c w) as [w1 [v|e]]. Qed.

(** What the preload leaves in the dynamic partition. *)
Lemma preloadStatic_partition (w : World) (k : string) :
  partition DYNAMIC_CACHE (preloadStatic network bad_status w).1 !! k
  = match fetchSettles network bad_status k with
    | Fulfilled response =>
        if bool_decide (k ∈ requestURLs STATIC_RESOURCES) then Some response
        else partition DYNAMIC_CACHE w !! k
    | Rejected _ => partition DYNAMIC_CACHE w !! k
    end.
Proof.
  unfold preloadStatic, bind, Promise_allSettled.
  pose proof (storage_lookup_opened DYNAMIC_CACHE w) as Hopen.
  pose proof (caches_open_fulfils DYNAMIC_CACHE w) as Hful.
  destruct (caches_open DYNAMIC_CACHE w) as [w1 r]. simpl in Hopen, Hful. subst r.
  destruct (settleAll_adds_partition
              (fun url => catch (cache_add network bad_status DYNAMIC_CACHE url)
                                (fun err => ret tt)) DYNAMIC_CACHE
              ltac:(intros key c w0 Hc; cbv beta; rewrite catch_ret_world;
                    now apply cache_add_partition)
              STATIC_RESOURCES _ w1 Hopen) as (c' & Hc' & Hlook).
  destruct (settleAll _ w1) as [w2 l].
  unfold partition at 1. simpl in Hc'. simpl fst. rewrite Hc'. apply Hlook.
Qed.

(** Whether or not the critical resources could be cached, the install
    leaves in the dynamic partition, under its absolute URL, each
    resource of the preload that could be added, and changes no other
    entry of it.  [k] is an absolute URL, a key of the partition. *)
Theorem oninstall_preloads (w : World) (k : string) :
  partition DYNAMIC_CACHE (oninstall network bad_status w).1 !! k
  = match fetchSettles network bad_status k with
    | Fulfilled response =>
        if bool_decide (k ∈ requestURLs STATIC_RESOURCES) then Some response
        else partition DYNAMIC_CACHE w !! k
    | Rejected _ => partition DYNAMIC_CACHE w !! k
    end.
Proof.
  pose proof (cacheCritical_samePartition w) as Hsame.
  unfold oninstall, catch, bind. simpl.
  destruct (cacheCritical network bad_status w) as [w1 r1]. simpl in Hsame.
  pose proof (preloadStatic_partition w1 k) as Hpre. rewrite Hsame in Hpre.
  destruct (preloadStatic network bad_status w1) as [w2 r2]. simpl fst in Hpre.
  destruct r1 as [[]|e1], r2 as [[]|e2]; exact Hpre.
Qed.

(** The fetches of [addAll], when each of them gives a response that
    the cache accepts: the responses come in the order of the requests
    and the caches are not touched. *)
Lemma Promise_all_fetch_ok (absolutes : list string) (w : World) :
  (forall absolute, absolute ∈ absolutes ->
                    isFulfilled (fetchSettles network bad_status absolute) = true) ->
  exists w1 responses,
    Promise_all (map (fetch_ok network bad_status) absolutes) w = (w1, Fulfilled responses) /\
    caches w1 = caches w /\
    Forall2 (fun absolute response =>
               fetchSettles network bad_status absolute = Fulfilled response)
            absolutes responses.
Proof.
  revert w. induction absolutes as [|absolute rest IH]; intros w Hall; simpl.
  - exists w, []. repeat split. constructor.
  - pose proof (fetch_ok_settles network bad_status absolute w) as Hkey.
    assert (Hcaches : caches (fetch_ok network bad_status absolute w).1 = caches w).
    { unfold fetch_ok. exec.
      destruct (network (GET absolute)) as [r|e]; simpl;
        [destruct (ok r && storable r)|]; reflexivity. }
    destruct (fetch_ok network bad_status absolute w) as [w0 r0]. simpl in Hkey, Hcaches.
    pose proof (Hall absolute ltac:(constructor)) as Hful. rewrite <- Hkey in Hful.
    destruct r0 as [response|e]; [|discriminate].
    destruct (IH w0) as (w1 & responses & Hrun & Hc & Hrel).
    { intros k Hk. apply Hall. now constructor. }
    rewrite Hrun. exists w1, (response :: responses).
    repeat split; [congruence|]. constructor; auto.
Qed.

(** The writes of [addAll] on a partition that exists. *)
Lemma putAll_partition (cacheName : string) (absolutes : list string)
      (responses : list Response) :
  Forall2 (fun absolute response =>
             fetchSettles network bad_status absolute = Fulfilled response)
          absolutes responses ->
  forall (c : gmap string Response) (w : World),
    storage_lookup cacheName (caches w) = Some c ->
    exists c',
      storage_lookup cacheName
        (caches (putAll cacheName (zip absolutes responses) w).1) = Some c' /\
      forall k,
        c' !! k = if bool_decide (k ∈ absolutes)
                  then match fetchSettles network bad_status k with
                       | Fulfilled response => Some response
                       | Rejected _ => None
                       end
                  else c !! k.
Proof.
  induction 1 as [|absolute response absolutes responses Hkey _ IH]; intros c w Hc; simpl.
  - exists c. auto.
  - unfold bind. simpl.
    destruct (IH (<[absolute := response]> c)
                 (cache_store cacheName absolute response w).1)
      as (c' & Hc' & Hlook).
    { simpl. rewrite storage_lookup_update, Hc. reflexivity. }
    exists c'. split; [exact Hc'|]. intros k. rewrite Hlook.
    destruct (decide (k = absolute)) as [->|Hne].
    + rewrite (bool_decide_eq_true_2 (absolute ∈ absolute :: absolutes)) by constructor.
      rewrite Hkey, lookup_insert_eq.
      now destruct (bool_decide (absolute ∈ absolutes)).
    + assert (Hmem : bool_decide (k ∈ absolute :: absolutes)
                     = bool_decide (k ∈ absolutes)).
      { apply bool_decide_ext. rewrite elem_of_cons. tauto. }
      rewrite Hmem, lookup_insert_ne by congruence. reflexivity.
Qed.

(** The requests of an [addAll] that refuses none of its strings. *)
Lemma requestURLs_made (keys absolutes : list string) :
  Forall2 (fun key absolute => resolve key = Fulfilled absolute) keys absolutes ->
  requestURLs keys = absolutes.
Proof.
  induction 1 as [|key absolute keys absolutes Hkey _ IH]; [reflexivity|].
  unfold requestURLs in *. simpl. rewrite Hkey. f_equal. exact IH.
Qed.

(** When every critical resource is served with a response that the
    cache accepts (2xx, other than 206, without [Vary: *]), the install
    leaves each of them in the static partition, under its absolute
    URL and with the response that was fetched, and changes no other
    entry of the static partition.  [k] is an absolute URL, a key of
    the partition. *)
Theorem oninstall_caches_critical_resources (w : World) :
  (forall key, key ∈ CRITICAL_RESOURCES ->
               isFulfilled (addSettles network bad_status key) = true) ->
  forall k,
    partition STATIC_CACHE (oninstall network bad_status w).1 !! k
    = if bool_decide (k ∈ requestURLs CRITICAL_RESOURCES)
      then match fetchSettles network bad_status k with
           | Fulfilled response => Some response
           | Rejected _ => None
           end
      else partition STATIC_CACHE w !! k.
Proof.
  intros Hall k.
  assert (Hcrit : exists c',
             storage_lookup STATIC_CACHE
               (caches (cacheCritical network bad_status w).1) = Some c' /\
             (cacheCritical network bad_status w).2 = Fulfilled tt /\
             c' !! k = if bool_decide (k ∈ requestURLs CRITICAL_RESOURCES)
                       then match fetchSettles network bad_status k with
                            | Fulfilled response => Some response
                            | Rejected _ => None
                            end
                       else partition STATIC_CACHE w !! k).
  { pose proof (cacheCritical_fulfils network bad_status w Hall) as Hful.
    unfold cacheCritical, cache_addAll, bind in *.
    pose proof (storage_lookup_opened STATIC_CACHE w) as Hopen.
    destruct (caches_open STATIC_CACHE w) as [w0 [[]|e0]]; [|discriminate]. simpl in Hopen.
    destruct (Promise_all_requestOf CRITICAL_RESOURCES w0) as [Hw Hmade].
    destruct (Promise_all (map requestOf CRITICAL_RESOURCES) w0) as [w0' [absolutes|e]];
      [|discriminate]. simpl in Hw, Hmade. subst w0'.
    rewrite (requestURLs_made _ _ Hmade).
    destruct (Promise_all_fetch_ok absolutes w0) as (w1 & responses & Hrun & Hc & Hrel).
    { intros absolute Hin. apply list_elem_of_lookup_1 in Hin as [i Hi].
      destruct (Forall2_lookup_r _ _ _ _ _ Hmade Hi) as (key & Hi' & Hkey).
      rewrite <- (addSettles_resolved network bad_status _ _ Hkey).
      apply Hall. now apply list_elem_of_lookup_2 with i. }
    rewrite Hrun in *. rewrite <- Hc in Hopen.
    destruct (putAll_partition STATIC_CACHE _ _ Hrel _ w1 Hopen) as (c' & Hc' & Hlook).
    exists c'. auto. }
  destruct Hcrit as (c' & Hc' & Hful & Hlook).
  pose proof (preloadStatic_sameStatic network bad_status
                (cacheCritical network bad_status w).1) as Hpre.
  unfold oninstall, catch, bind. simpl.
  destruct (cacheCritical network bad_status w) as [w1 r1]. simpl fst in *. simpl snd in *.
  subst r1.
  destruct (preloadStatic network bad_status w1) as [w2 r2]. simpl fst in Hpre.
  assert (Hstatic : partition STATIC_CACHE w2 !! k
                    = if bool_decide (k ∈ requestURLs CRITICAL_RESOURCES)
                      then match fetchSettles network bad_status k with
                           | Fulfilled response => Some response
                           | Rejected _ => None
                           end
                      else partition STATIC_CACHE w !! k).
  { rewrite Hpre. unfold partition at 1. rewrite Hc'. exact Hlook. }
  destruct r2 as [[]|e2]; exact Hstatic.
Qed.
End Stores.

(** ** Deleting partitions: activation and [CLEAR_CACHE] *)

Lemma caches_delete_quiet (cacheName : string) : preserves quiet (caches_delete cacheName).
Proof. intros w. unfold quiet. exec. trace_simpl. auto. Qed.

Lemma filter_all {A} (P : A -> Prop) `{!forall x, Decision (P x)} (l : list A) :
  (forall x, x ∈ l -> P x) -> filter P l = l.
Proof.
  induction l as [|x l IH]; intros Hall; [reflexivity|].
  rewrite filter_cons_True by (apply Hall; constructor).
  f_equal. apply IH. intros y Hy. apply Hall. now constructor.
Qed.

(** Deleting a partition that is not current does not change which
    current partitions there are. *)
Lemma filter_current_after_delete (n : string) (cs : list (string * gmap string Response)) :
  current n = false ->
  filter (fun nc => current nc.1) (filter (fun nc => negb (String.eqb nc.1 n)) cs)
  = filter (fun nc => current nc.1) cs.
Proof.
  intros Hn. induction cs as [|[m c] rest IH]; [reflexivity|].
  rewrite (filter_cons (fun nc => negb (String.eqb nc.1 n))).
  rewrite (filter_cons (fun nc => current nc.1) (m, c) rest).
  simpl. destruct (String.eqb_spec m n) as [->|Hne]; simpl.
  - rewrite Hn. simpl. destruct (decide (Is_true false)) as [[]|_].
    destruct (decide (Is_true false)) as [[]|_]. exact IH.
  - destruct (decide (Is_true true)) as [_|Hno]; [|now destruct Hno].
    rewrite filter_cons. simpl. now rewrite IH.
Qed.

Lemma storage_lookup_filter_current (cacheName : string)
      (cs : list (string * gmap string Response)) :
  current cacheName = true ->
  storage_lookup cacheName (filter (fun nc => current nc.1) cs)
  = storage_lookup cacheName cs.
Proof.
  intros Hcur. induction cs as [|[m c] rest IH]; [reflexivity|].
  rewrite filter_cons. simpl.
  destruct (decide (Is_true (current m))) as [Hm|Hm]; simpl.
  - now rewrite IH.
  - rewrite IH. destruct (String.eqb_spec m cacheName) as [->|_]; [|reflexivity].
    rewrite Hcur in Hm. now destruct Hm.
Qed.

(** [clearAllCaches] on the names of all the partitions leaves none. *)
Lemma delete_all_partitions (names : list string) (w : World) :
  (forall nc, nc ∈ caches w -> nc.1 ∈ names) ->
  caches (Promise_all (map (fun cacheName => caches_delete cacheName) names) w).1 = []
  /\ isFulfilled
       (Promise_all (map (fun cacheName => caches_delete cacheName) names) w).2 = true.
Proof.
  revert w. induction names as [|n rest IH]; intros w Hall; simpl.
  - split; [|reflexivity]. destruct (caches w) as [|nc cs]; [reflexivity|].
    specialize (Hall nc ltac:(constructor)). inversion Hall.
  - destruct (IH (caches_delete n w).1) as (Hnil & Hful).
    { simpl. intros nc Hin. apply list_elem_of_filter in Hin as [Hne Hin].
      apply Hall in Hin. apply elem_of_cons in Hin as [Heq|Hin]; [|exact Hin].
      rewrite Heq, String.eqb_refl in Hne. now destruct Hne. }
    simpl in Hnil, Hful.
    destruct (Promise_all _ _) as [w2 [l|e]]; [|discriminate]. auto.
Qed.

Section Activate.
Variable clients_claim : Settled unit.

Lemma deleteOld_quiet (cacheName : string) : preserves quiet (deleteOld cacheName).
Proof.
  unfold deleteOld. destruct (_ && _).
  - apply (preserves_bind quiet quiet_trans); [apply caches_delete_quiet|].
    intros deleted. apply preserves_ret, quiet_refl.
  - apply preserves_ret, quiet_refl.
Qed.

Lemma deleteOld_run (cacheName : string) (w : World) :
  deleteOld cacheName w
  = if current cacheName then (w, Fulfilled None)
    else ((caches_delete cacheName w).1,
          Fulfilled (Some (bool_decide (is_Some (storage_lookup cacheName (caches w)))))).
Proof.
  unfold deleteOld, current.
  now destruct (String.eqb cacheName STATIC_CACHE), (String.eqb cacheName DYNAMIC_CACHE).
Qed.

Lemma delete_old_partitions (names : list string) (w : World) :
  (forall nc, nc ∈ caches w -> current nc.1 = true \/ nc.1 ∈ names) ->
  caches (Promise_all (map deleteOld names) w).1
  = filter (fun nc => current nc.1) (caches w)
  /\ isFulfilled (Promise_all (map deleteOld names) w).2 = true.
Proof.
  revert w. induction names as [|n rest IH]; intros w Hall; simpl.
  - split; [|reflexivity]. symmetry. apply filter_all.
    intros nc Hin. destruct (Hall nc Hin) as [->|Hno]; [exact I | inversion Hno].
  - rewrite deleteOld_run. destruct (current n) eqn:Hn.
    + destruct (IH w) as (Hkeep & Hful).
      { intros nc Hin. destruct (Hall nc Hin) as [Hc|Hin']; [now left|].
        apply elem_of_cons in Hin' as [->|Hin']; [now left | now right]. }
      destruct (Promise_all (map deleteOld rest) w) as [w2 [l|e]]; [|discriminate]. auto.
    + destruct (IH (caches_delete n w).1) as (Hkeep & Hful).
      { simpl. intros nc Hin. apply list_elem_of_filter in Hin as [Hne Hin].
        destruct (Hall nc Hin) as [Hc|Hin']; [now left|].
        apply elem_of_cons in Hin' as [Heq|Hin']; [|now right].
        rewrite Heq, String.eqb_refl in Hne. now destruct Hne. }
      simpl in Hkeep, Hful. rewrite filter_current_after_delete in Hkeep by assumption.
      destruct (Promise_all (map deleteOld rest) _) as [w2 [l|e]]; [|discriminate]. auto.
Qed.

(** Activation keeps the static and the dynamic partition, with their
    entries, and deletes every other partition.  The promise given to
    [waitUntil] is fulfilled in every case: when [clients.claim()]
    rejects, the error is counted and nothing is rethrown. *)
Theorem onactivate_keeps_current_partitions (w : World) :
  let w' := (onactivate clients_claim w).1 in
  (onactivate clients_claim w).2 = Fulfilled tt /\
  caches w' = filter (fun nc => current nc.1) (caches w) /\
  partition STATIC_CACHE w' = partition STATIC_CACHE w /\
  partition DYNAMIC_CACHE w' = partition DYNAMIC_CACHE w /\
  errors (metrics w') = errors (metrics w) + (if isFulfilled clients_claim then 0 else 1).
Proof.
  destruct (delete_old_partitions (caches w).*1 w) as (Hkeep & Hful).
  { intros nc Hin. right. now apply (list_elem_of_fmap_2 fst). }
  pose proof (preserves_Promise_all quiet quiet_refl quiet_trans
                (map deleteOld (caches w).*1)
                ltac:(apply Forall_forall; intros p Hp;
                      apply list_elem_of_fmap in Hp as (n & -> & _);
                      apply deleteOld_quiet) w) as (Hm & _).
  assert (Hparts : forall cacheName, current cacheName = true ->
            default ∅ (storage_lookup cacheName (filter (fun nc => current nc.1) (caches w)))
            = partition cacheName w).
  { intros cacheName Hcur. unfold partition. now rewrite storage_lookup_filter_current. }
  unfold onactivate, catch, bind, caches_keys. simpl.
  destruct (Promise_all (map deleteOld (caches w).*1) w) as [w1 [l|e]];
    [|discriminate]. simpl in Hkeep, Hm.
  destruct clients_claim as [[]|e]; unfold partition; simpl; rewrite Hkeep, ?Hm;
    repeat split; auto using Z.add_0_r.
  all: try (symmetry; apply Z.add_0_r).
Qed.
End Activate.

Section Commands.
Context {here : Location}.
Variable network : Request -> Settled Response.
Variable bad_status : Response -> Error.

Lemma clearAllCaches_run (w : World) :
  caches (clearAllCaches w).1 = []
  /\ isFulfilled (clearAllCaches w).2 = true
  /\ quiet w (clearAllCaches w).1.
Proof.
  unfold clearAllCaches, bind, caches_keys. cbv beta iota.
  destruct (delete_all_partitions (caches w).*1 w) as (Hnil & Hful).
  { intros nc Hin. now apply (list_elem_of_fmap_2 fst). }
  repeat split; auto.
  all: apply (preserves_Promise_all quiet quiet_refl quiet_trans
                (map (fun cacheName => caches_delete cacheName) (caches w).*1)
                ltac:(apply Forall_forall; intros p Hp;
                      apply list_elem_of_fmap in Hp as (n & -> & _);
                      apply caches_delete_quiet) w).
Qed.

(** [CLEAR_CACHE] deletes every partition, the static and the dynamic
    one included, and answers once, with [success: true]; afterwards
    [caches.match] finds nothing. *)
Theorem clear_cache_deletes_everything (payload : option Payload) (w : World) :
  let w' := (onmessage network bad_status (mkMessageData "CLEAR_CACHE" payload) w).1 in
  caches w' = [] /\
  (forall key, storage_match key (caches w') = None) /\
  replies (trace w') = replies (trace w) ++ [CACHE_CLEARED true None] /\
  metrics w' = metrics w.
Proof.
  destruct (clearAllCaches_run w) as (Hnil & Hful & Hm & _ & Hr).
  unfold onmessage. simpl. unfold catch, bind.
  destruct (clearAllCaches w) as [w1 [l|e]]; [|discriminate]. simpl in *.
  unfold postMessage. trace_simpl. rewrite Hnil, Hr, Hm. auto.
Qed.

(** A message whose data is an object, with [urls], when it is there,
    a list of strings, never changes the counters and is answered at
    most once; when its type is none of the three commands it changes
    nothing at all.  (Data that is not an object, or [urls] that is not
    a list, make the handler throw: such messages are not values of
    [MessageData] and nothing is said of them.) *)
Theorem onmessage_answers_at_most_once (data : MessageData) (w : World) :
  let w' := (onmessage network bad_status data w).1 in
  metrics w' = metrics w /\
  (replies (trace w') = replies (trace w)
   \/ exists reply, replies (trace w') = replies (trace w) ++ [reply]) /\
  (type data ∉ ["GET_METRICS"; "CLEAR_CACHE"; "PREFETCH_RESOURCES"] -> w' = w).
Proof.
  unfold onmessage.
  destruct (String.eqb_spec (type data) "GET_METRICS") as [Ht|Hmetrics].
  { exec. trace_simpl. repeat split; eauto;
      intros Hnot; exfalso; apply Hnot; rewrite Ht; repeat constructor. }
  destruct (String.eqb_spec (type data) "CLEAR_CACHE") as [Ht|Hclear].
  { destruct (clearAllCaches_run w) as (Hnil & Hful & Hm & _ & Hr).
    unfold catch, bind.
    destruct (clearAllCaches w) as [w1 [l|e]]; [|discriminate]. simpl in *.
    unfold postMessage. trace_simpl. rewrite Hr, Hm. repeat split; eauto;
      intros Hnot; exfalso; apply Hnot; rewrite Ht; repeat constructor. }
  destruct (String.eqb_spec (type data) "PREFETCH_RESOURCES") as [Ht|Hprefetch].
  { assert (Hno : type data ∉ ["GET_METRICS"; "CLEAR_CACHE"; "PREFETCH_RESOURCES"] ->
                  False).
    { intros Hnot. apply Hnot. rewrite Ht. repeat constructor. }
    destruct (payload data) as [p|]; [destruct (urls p) as [list|]|].
    - destruct (prefetchResources_results network bad_status list w)
        as (w1 & results & Hrun & _).
      pose proof (prefetchResources_quiet network bad_status list w) as (Hm & _ & Hr).
      unfold bind. rewrite Hrun in *. simpl in Hm, Hr.
      unfold postMessage. trace_simpl. rewrite Hr, Hm. repeat split; eauto;
        intros Hnot; now destruct (Hno Hnot).
    - simpl. repeat split; auto; intros Hnot; now destruct (Hno Hnot).
    - simpl. repeat split; auto; intros Hnot; now destruct (Hno Hnot). }
  simpl. repeat split; auto.
Qed.
End Commands.

(** ** The cleanup seen as a whole *)

Section CleanupAsFilter.
Variable Date_now : Z.
Variable Date_parse : string -> option Z.

(** What the cleanup leaves of the dynamic partition: the entries that
    are not too old, and nothing that was not there. *)
Lemma performCacheCleanup_run (w : World) :
  exists w',
    performCacheCleanup Date_now Date_parse w = (w', Fulfilled tt) /\
    forall k,
      partition DYNAMIC_CACHE w' !! k
      = match partition DYNAMIC_CACHE w !! k with
        | Some response =>
            if tooOld Date_parse Date_now response then None else Some response
        | None => None
        end.
Proof.
  unfold performCacheCleanup, bind.
  pose proof (caches_open_fulfils DYNAMIC_CACHE w) as Hopen.
  pose proof (partition_after_open DYNAMIC_CACHE DYNAMIC_CACHE w) as Hsame.
  destruct (caches_open DYNAMIC_CACHE w) as [w1 r]. simpl in Hopen, Hsame. subst r.
  unfold cache_keys at 1. cbv beta iota.
  destruct (cleanup_all Date_now Date_parse
              ((map_to_list (partition DYNAMIC_CACHE w1)).*1)) with (w := w1)
    as (Hful & Hlook).
  { apply NoDup_fst_map_to_list. }
  { intros k' Hk. apply list_elem_of_fmap in Hk as ([k'' r'] & -> & Hk).
    apply elem_of_map_to_list in Hk. eauto. }
  destruct (Promise_all _ w1) as [w2 [l|e]]; [|discriminate]. simpl in Hlook.
  exists w2. split; [reflexivity|]. intros k.
  specialize (Hlook k). rewrite Hsame in Hlook. rewrite Hlook.
  destruct (partition DYNAMIC_CACHE w !! k) as [response|] eqn:Hk; [|reflexivity].
  rewrite bool_decide_eq_true_2; [reflexivity|].
  apply list_elem_of_fmap. exists (k, response). split; [reflexivity|].
  now apply elem_of_map_to_list.
Qed.

Lemma performCacheCleanup_lookup (w : World) (k : string) :
  (performCacheCleanup Date_now Date_parse w).2 = Fulfilled tt /\
  partition DYNAMIC_CACHE (performCacheCleanup Date_now Date_parse w).1 !! k
  = match partition DYNAMIC_CACHE w !! k with
    | Some response =>
        if tooOld Date_parse Date_now response then None else Some response
    | None => None
    end.
Proof.
  destruct (performCacheCleanup_run w) as (w' & Hrun & Hlook).
  rewrite Hrun. split; [reflexivity | apply Hlook].
Qed.

(** The cleanup adds no entry: what is in the dynamic partition after
    it was there before, with the same response. *)
Theorem performCacheCleanup_adds_nothing (w : World) :
  partition DYNAMIC_CACHE (performCacheCleanup Date_now Date_parse w).1
  ⊆ partition DYNAMIC_CACHE w.
Proof.
  apply map_subseteq_spec. intros k response Hk.
  destruct (performCacheCleanup_lookup w k) as (_ & Hlook). rewrite Hlook in Hk.
  destruct (partition DYNAMIC_CACHE w !! k) as [r|]; [|discriminate].
  now destruct (tooOld Date_parse Date_now r).
Qed.

(** A second cleanup at the same time deletes nothing more. *)
Theorem performCacheCleanup_idempotent (w : World) :
  partition DYNAMIC_CACHE
    (performCacheCleanup Date_now Date_parse
       (performCacheCleanup Date_now Date_parse w).1).1
  = partition DYNAMIC_CACHE (performCacheCleanup Date_now Date_parse w).1.
Proof.
  apply map_eq. intros k.
  destruct (performCacheCleanup_lookup (performCacheCleanup Date_now Date_parse w).1 k)
    as (_ & ->).
  destruct (performCacheCleanup_lookup w k) as (_ & ->).
  destruct (partition DYNAMIC_CACHE w !! k) as [r|]; [|reflexivity].
  destruct (tooOld Date_parse Date_now r) eqn:Hold; [reflexivity|]. now rewrite Hold.
Qed.

Lemma cleanupEntry_frame (now : Z) (key other : string) :
  other <> DYNAMIC_CACHE ->
  preserves (fun w w' => samePartition other w w' /\ quiet w w' /\
                         fetches (trace w') = fetches (trace w) /\
                         cachePuts (trace w') = cachePuts (trace w))
            (cleanupEntry Date_parse now key).
Proof.
  intros Hne w. unfold cleanupEntry, samePartition, quiet, partition. exec.
  repeat match goal with
    | |- context [match ?x with _ => _ end] => destruct x; simpl
    end; trace_simpl; rewrite ?storage_lookup_update_ne by assumption; auto 10.
Qed.

(** The cleanup works on the dynamic partition alone: every other
    partition keeps its entries, nothing is fetched or stored, no
    counter moves and no message is posted. *)
Theorem performCacheCleanup_touches_only_dynamic (other : string) (w : World) :
  other <> DYNAMIC_CACHE ->
  let w' := (performCacheCleanup Date_now Date_parse w).1 in
  partition other w' = partition other w /\
  metrics w' = metrics w /\
  fetches (trace w') = fetches (trace w) /\
  cachePuts (trace w') = cachePuts (trace w) /\
  replies (trace w') = replies (trace w).
Proof.
  intros Hne.
  set (R := fun w w' : World =>
              samePartition other w w' /\ quiet w w' /\
              fetches (trace w') = fetches (trace w) /\
              cachePuts (trace w') = cachePuts (trace w)).
  assert (Hrefl : forall w0, R w0 w0) by (intros w0; repeat split).
  assert (Htrans : forall w1 w2 w3, R w1 w2 -> R w2 w3 -> R w1 w3).
  { intros w1 w2 w3 (Hp & Hq & Hf & Hc) (Hp' & Hq' & Hf' & Hc').
    split; [eapply samePartition_trans; eauto|].
    split; [eapply quiet_trans; eauto|]. split; congruence. }
  assert (Hall : preserves R (performCacheCleanup Date_now Date_parse)).
  { apply (preserves_bind R Htrans).
    { intros w0. pose proof (partition_after_open DYNAMIC_CACHE other w0) as Hp.
      unfold caches_open in *. destruct (storage_lookup DYNAMIC_CACHE (caches w0));
        repeat split; auto. }
    intros _. apply (preserves_bind R Htrans); [intros w0; apply Hrefl|].
    intros requests. apply (preserves_bind R Htrans).
    - apply (preserves_Promise_all R Hrefl Htrans).
      apply Forall_forall. intros p Hp.
      apply list_elem_of_fmap in Hp as (key & -> & _).
      now apply cleanupEntry_frame.
    - intros l. apply preserves_ret, Hrefl. }
  destruct (Hall w) as (Hp & (Hm & _ & Hr) & Hf & Hc). auto.
Qed.
End CleanupAsFilter.

(** ** Concrete runs of the further properties *)

Lemma visited_onlyDynamicHolds : onlyDynamicHolds (url api) (caches visited).
Proof.
  intros n c Hin Hne.
  apply elem_of_cons in Hin as [[= -> ->] | Hin]; [reflexivity|].
  apply elem_of_cons in Hin as [[= -> ->] | Hin]; [contradiction | inversion Hin].
Defined.

Lemma cacheFirst_hit_witness :
  exists w',
    cacheFirst offline api visited = (w', Fulfilled (VResponse stale)) /\
    trace w' = [].
Proof.
  destruct (cacheFirst_hit offline api stale visited)
    as (w' & Hrun & _ & _ & _ & Htrace & _); [reflexivity|].
  exists w'. auto.
Defined.

Lemma cacheFirst_stores_only_ok_witness :
  exists w',
    cacheFirst withoutStyles (GET "/css/styles.css") started
    = (w', Fulfilled (VResponse notFound)) /\
    caches w' = [].
Proof.
  destruct (cacheFirst_stores_only_ok withoutStyles (GET "/css/styles.css") started)
    as (w' & Hrun & Hcaches & _).
  - reflexivity.
  - intros response [= <-]. reflexivity.
  - exists w'. auto.
Defined.

Lemma cacheFirst_twice_witness :
  exists w1 w2,
    cacheFirst online logo started = (w1, Fulfilled (VResponse found)) /\
    cacheFirst offline logo w1 = (w2, Fulfilled (VResponse found)) /\
    fetches (trace w2) = [logo].
Proof.
  destruct (cacheFirst_twice online offline logo found started)
    as (w1 & w2 & Hrun1 & Hrun2 & Hfetches & _); try reflexivity.
  exists w1, w2. auto.
Defined.

Lemma networkFirst_online_witness :
  exists w',
    networkFirst online api visited = (w', Fulfilled (VResponse found)) /\
    partition DYNAMIC_CACHE w' !! url api = Some found /\
    cacheHits (metrics w') = 0.
Proof.
  destruct (networkFirst_online online api found visited)
    as (w' & Hrun & _ & Hhits & _ & _ & Hok & _); [reflexivity|].
  destruct (Hok eq_refl) as (_ & Hkept & _).
  exists w'. repeat split; auto.
Defined.

(** A partial response goes through network-first: the one [put] is
    refused and the entry that was cached stays. *)
Example networkFirst_partial_content :
  (networkFirst ranged api visited).2 = Fulfilled (VResponse partialContent) /\
  partition DYNAMIC_CACHE (networkFirst ranged api visited).1 !! url api = Some stale.
Proof. split; reflexivity. Qed.

Lemma networkFirst_falls_back_to_last_response_witness :
  exists w1 w2,
    networkFirst online api visited = (w1, Fulfilled (VResponse found)) /\
    networkFirst offline api w1 = (w2, Fulfilled (VResponse found)).
Proof.
  destruct (networkFirst_falls_back_to_last_response
              online offline api found failedToFetch visited)
    as (w1 & w2 & Hrun1 & Hrun2 & _); try reflexivity.
  - exact visited_onlyDynamicHolds.
  - exists w1, w2. auto.
Defined.

Lemma staleWhileRevalidate_miss_online_witness :
  exists w',
    staleWhileRevalidate online script started = (w', Fulfilled (VResponse found)) /\
    cacheMisses (metrics w') = 1.
Proof.
  destruct (staleWhileRevalidate_miss_online online script found started)
    as (w' & Hrun & _ & Hmiss & _); try reflexivity.
  exists w'. auto.
Defined.

Lemma staleWhileRevalidate_hit_offline_witness :
  exists w',
    staleWhileRevalidate offline api visited = (w', Fulfilled (VResponse stale)) /\
    errors (metrics w') = 0.
Proof.
  destruct (staleWhileRevalidate_hit_offline offline api stale failedToFetch visited)
    as (w' & Hrun & _ & Herr & _); try reflexivity.
  exists w'. auto.
Defined.

Lemma staleWhileRevalidate_hit_online_witness :
  exists w',
    staleWhileRevalidate online api visited = (w', Fulfilled (VResponse stale)) /\
    partition DYNAMIC_CACHE w' !! url api = Some found /\
    fetches (trace w') = [api] /\
    networkRequests (metrics w') = 0.
Proof.
  destruct (staleWhileRevalidate_hit_online online api stale found visited)
    as (w' & Hrun & Hpart & Hfetch & _ & _ & Hnet & _); try reflexivity.
  exists w'. auto.
Defined.

Lemma staleWhileRevalidate_serves_refreshed_next_witness :
  exists w1,
    staleWhileRevalidate online api visited = (w1, Fulfilled (VResponse stale)) /\
    partition DYNAMIC_CACHE w1 !! url api = Some found /\
    (staleWhileRevalidate offline api w1).2 = Fulfilled (VResponse found).
Proof.
  apply (staleWhileRevalidate_serves_refreshed_next online offline api stale found visited);
    try reflexivity.
  exact visited_onlyDynamicHolds.
Defined.

Lemma staleWhileRevalidate_never_refreshes_earlier_partition_witness :
  exists w',
    staleWhileRevalidate online utils installed = (w', Fulfilled (VResponse stale)) /\
    partition DYNAMIC_CACHE w' !! url utils = Some found /\
    storage_match (url utils) (caches w') = Some stale.
Proof.
  apply (staleWhileRevalidate_never_refreshes_earlier_partition
           online utils stale found STATIC_CACHE {[ url utils := stale ]}
           [(DYNAMIC_CACHE, ∅)] installed); try reflexivity.
  discriminate.
Defined.

Lemma oninstall_caches_critical_resources_witness :
  partition STATIC_CACHE (oninstall online requestFailed started).1
    !! "https://pocketgnu.example/index.html" = Some found
  /\ partition STATIC_CACHE (oninstall online requestFailed started).1
       !! "https://pocketgnu.example/css/styles.css" = None
  /\ partition STATIC_CACHE (oninstall online requestFailed started).1
       !! "/index.html" = None.
Proof.
  split; [|split];
    (rewrite (oninstall_caches_critical_resources online requestFailed started);
     [reflexivity|]; intros key Hin; one_of Hin ltac:(reflexivity)).
Defined.

Lemma oninstall_tolerates_preload_failures_witness :
  exists w',
    oninstall withoutStyles requestFailed started = (w', Fulfilled tt) /\
    skipWaitingCalls (trace w') = [tt].
Proof.
  destruct (oninstall_tolerates_preload_failures withoutStyles requestFailed started)
    as (w' & Hrun & _ & Hskip).
  - intros key Hin. one_of Hin ltac:(reflexivity).
  - exists w'. auto.
Defined.

Lemma performCacheCleanup_touches_only_dynamic_witness :
  partition STATIC_CACHE (performCacheCleanup (8 * day) parseDay installed).1
  = partition STATIC_CACHE installed.
Proof.
  apply (performCacheCleanup_touches_only_dynamic (8 * day) parseDay STATIC_CACHE installed).
  discriminate.
Defined.

(** An activation after a change of version: the partitions of the
    earlier version go, the two current ones stay. *)
Example onactivate_after_upgrade :
  (caches (onactivate (Fulfilled tt)
             (mkWorld [ ("pocketgnu-static-v0.9.0", {[ url utils := stale ]});
                        (STATIC_CACHE, {[ url utils := found ]});
                        ("pocketgnu-dynamic-v0.9.0", ∅);
                        (DYNAMIC_CACHE, ∅) ]
                      PerformanceMonitor.initial [])).1).*1
  = [STATIC_CACHE; DYNAMIC_CACHE].
Proof. reflexivity. Qed.
